(** * Allocation engine of the expense calculator: [compute_allocations]

    A shallow embedding of [src/main.py], lines 104-155, and the
    properties of the allocation that the specification states.

    Conventions of the embedding.

    - A Python [int] is a [Z].
    - A [Numeric(12, 2)] column is read back as a decimal with two places;
      it is a [decimal], the count of its hundredths.
    - A Python [float] is idealised as an exact rational ([Q]): [float(d)],
      the products, quotients and the sum with [1e-9] are exact, and
      [round] is Python 3's rounding to the nearest with ties to even. The
      binary floats of the code agree with it on [cents] and [money] for
      the amounts that a [Numeric(12, 2)] column is declared to hold
      ([fits_column]), as the total and the values of the pledges are;
      beyond them they round, and overflow to an [OverflowError] that the
      embedding does not have, and a percentage that is half a cent away
      from an integer can go to the other neighbour. The targets can grow
      beyond the column, so the statements about the loops are made about
      the integer cents of [targets], whatever the rounding, or for
      targets that fit the column.
    - A [dict] is an association list in insertion order whose keys are
      pairwise different; [d[k]] on an absent key raises [KeyError].
    - An exception is a value of [error]; the code that can raise runs in
      the [result] monad.
    - The database is a snapshot of the three tables the function reads;
      a query returns the matching rows in table order. *)

From Stdlib Require Import ZArith QArith List String Bool Lia.
From Stdlib Require Import Permutation Sorted.
From Stdlib Require Import Ascii DecimalString.
Import ListNotations.

Local Open Scope Z_scope.

(** ** Exceptions and the [result] monad *)

Inductive error : Type :=
| KeyError
| TypeError
| AttributeError
| ValueError
| ZeroDivisionError.

Inductive result (A : Type) : Type :=
| Ok (a : A)
| Err (e : error).

Arguments Ok {A} a.
Arguments Err {A} e.

Definition bind {A B : Type} (m : result A) (k : A -> result B) : result B :=
  match m with
  | Ok a => k a
  | Err e => Err e
  end.

Notation "x <- m ;; k" := (bind m (fun x => k))
  (at level 61, m at next level, right associativity).

(** A [for] loop whose body can raise: the state is threaded from left to
    right and the first exception ends the loop. *)
Fixpoint foldM {A S : Type} (body : S -> A -> result S) (l : list A) (s : S)
  : result S :=
  match l with
  | [] => Ok s
  | x :: l' => s' <- body s x ;; foldM body l' s'
  end.

(** A comprehension whose element expression can raise. *)
Fixpoint mapM {A B : Type} (f : A -> result B) (l : list A) : result (list B) :=
  match l with
  | [] => Ok []
  | x :: l' => y <- f x ;; ys <- mapM f l' ;; Ok (y :: ys)
  end.

(** ** Python primitives *)

Module Py.

(** [a // b] on integers: the floor of the quotient. *)
Definition floordiv (a b : Z) : result Z :=
  if b =? 0 then Err ZeroDivisionError else Ok (a / b).

(** [round] of the rational [n / d], [0 < d]: nearest integer, ties to the
    even one. *)
Definition round_half_even (n d : Z) : Z :=
  let q := n / d in
  let r := n mod d in
  if 2 * r <? d then q
  else if d <? 2 * r then q + 1
  else if Z.even q then q else q + 1.

(** [int(round(x))]. *)
Definition round (x : Q) : Z := round_half_even (Qnum x) (Zpos (Qden x)).

(** [l[:n]]: the first [n] elements, and for a negative [n] all but the
    last [-n]. *)
Definition slice_to {A : Type} (l : list A) (n : Z) : list A :=
  if 0 <=? n then firstn (Z.to_nat n) l
  else firstn (List.length l - Z.to_nat (- n)) l.

(** [sum(l)]. *)
Definition sum (l : list Z) : Z := fold_left Z.add l 0.

(** [x or y] on integers. *)
Definition or_ (x y : Z) : Z := if x =? 0 then y else x.

(** [sorted(l, key=..., reverse=True)] on a list already decorated with its
    keys: descending by key, and elements with equal keys keep the order
    they have in [l]. *)
Fixpoint insert_desc (x : Z * Z) (l : list (Z * Z)) : list (Z * Z) :=
  match l with
  | [] => [x]
  | y :: l' => if fst x <? fst y then y :: insert_desc x l' else x :: l
  end.

Fixpoint sorted_desc (l : list (Z * Z)) : list (Z * Z) :=
  match l with
  | [] => []
  | x :: l' => insert_desc x (sorted_desc l')
  end.

End Py.

(** ** Dictionaries with integer keys and values *)

Definition dict : Type := list (Z * Z).

Definition keys (d : dict) : list Z := map fst d.
Definition values (d : dict) : list Z := map snd d.

(** [d[k]]. *)
Fixpoint getitem (d : dict) (k : Z) : result Z :=
  match d with
  | [] => Err KeyError
  | (k', v) :: d' => if k' =? k then Ok v else getitem d' k
  end.

(** [d[k] = v]: an existing key keeps its place, a new one goes last. *)
Fixpoint setitem (d : dict) (k v : Z) : dict :=
  match d with
  | [] => [(k, v)]
  | (k', v') :: d' =>
      if k' =? k then (k', v) :: d' else (k', v') :: setitem d' k v
  end.

(** [d[k] += c]. *)
Definition iadd (d : dict) (k c : Z) : result dict :=
  v <- getitem d k ;; Ok (setitem d k (v + c)).

(** [{key: value for ... in l}]. *)
Definition dict_of (l : list (Z * Z)) : dict :=
  fold_left (fun d kv => setitem d (fst kv) (snd kv)) l [].

(** [max(d, key=d.get)]: the first key, in iteration order, whose value is
    the largest. *)
Definition max_key (d : dict) : result Z :=
  match d with
  | [] => Err ValueError
  | kv :: d' =>
      Ok (fst (fold_left
                 (fun best cur => if snd best <? snd cur then cur else best)
                 d' kv))
  end.

(** ** Decimals, [cents] and [money] *)

(** A decimal with two places, as a [Numeric(12, 2)] column yields it. *)
Record decimal : Type := Dec { hundredths : Z }.

(** [float(d)]; [d] is [None] when the column is NULL. *)
Definition float (d : option decimal) : result Q :=
  match d with
  | Some x => Ok (hundredths x # 100)
  | None => Err TypeError
  end.

(** [def cents(d): return int(round(float(d) * 100))] *)
Definition cents (d : option decimal) : result Z :=
  x <- float d ;; Ok (Py.round (x * 100)).

(** [def money(c): return round(c / 100.0 + 1e-9, 2)]; the float with two
    places that comes out is kept as a [decimal]. *)
Definition money (c : Z) : decimal :=
  Dec (Py.round ((inject_Z c / 100 + (1 # 1000000000)) * 100)).

(** ** The tables *)

Module Event.
Record t : Type := mk {
  id : Z;
  title : string;
  description : string;
  currency : string;
  total_amount : decimal;
  status : string;
  created_by : Z
}.
End Event.

Module Participant.
Record t : Type := mk {
  id : Z;
  event_id : Z;
  user_id : Z;
  display_name : string
}.
End Participant.

Module Pledge.
Record t : Type := mk {
  id : Z;
  event_id : Z;
  participant_id : Z;
  type : string;
  value_type : option string;
  value : option decimal;
  active : bool
}.
End Pledge.

(** What a [Session] gives access to. *)
Record Session : Type := mkSession {
  events : list Event.t;
  participants : list Participant.t;
  pledges : list Pledge.t
}.

(** [db.query(Event).get(event_id)] *)
Definition query_event (db : Session) (event_id : Z) : option Event.t :=
  find (fun e => Event.id e =? event_id) (events db).

(** [db.query(Participant).filter_by(event_id=event_id).all()] *)
Definition query_participants (db : Session) (event_id : Z)
  : list Participant.t :=
  filter (fun p => Participant.event_id p =? event_id) (participants db).

(** [db.query(Pledge).filter_by(event_id=event_id, type=ty, active=True).all()] *)
Definition query_pledges (db : Session) (event_id : Z) (ty : string)
  : list Pledge.t :=
  filter (fun p => (Pledge.event_id p =? event_id)
                   && String.eqb (Pledge.type p) ty
                   && Pledge.active p)
         (pledges db).

(** [vt == s] for a nullable string column. *)
Definition is_value_type (vt : option string) (s : string) : bool :=
  match vt with
  | Some s' => String.eqb s' s
  | None => false
  end.

(** ** [compute_allocations], phase by phase *)

(** [int(round(targets[pid] * float(value) / 100.0))] *)
Definition percent_of (targets : dict) (pid : Z) (value : option decimal)
  : result Z :=
  t <- getitem targets pid ;;
  x <- float value ;;
  Ok (Py.round (inject_Z t * x / 100)).

(** Lines 112-117: the equal split and its remainder. *)
Definition equal_split (total_cents : Z) (parts : list Participant.t)
  : result dict :=
  let N := Z.of_nat (List.length parts) in
  base <- Py.floordiv total_cents N ;;
  let targets := dict_of (map (fun p => (Participant.id p, base)) parts) in
  let remainder := total_cents - base * N in
  foldM (fun tg p => iadd tg (Participant.id p) 1)
        (Py.slice_to parts remainder) targets.

(** Lines 122-127: the body of the loop over the overpay pledges. *)
Definition volunteer_overpay (targets : dict) (v : Pledge.t) : result dict :=
  add <- (if is_value_type (Pledge.value_type v) "percent"
          then percent_of targets (Pledge.participant_id v) (Pledge.value v)
          else if is_value_type (Pledge.value_type v) "fixed"
          then cents (Pledge.value v)
          else Ok 0) ;;
  iadd targets (Pledge.participant_id v) add.

(** Lines 132-136: the shortfall of an underpay bid. *)
Definition bid_shortfall (targets : dict) (b : Pledge.t) : result Z :=
  if is_value_type (Pledge.value_type b) "percent"
  then percent_of targets (Pledge.participant_id b) (Pledge.value b)
  else if is_value_type (Pledge.value_type b) "fixed"
  then c <- cents (Pledge.value b) ;;
       t <- getitem targets (Pledge.participant_id b) ;;
       Ok (Z.min c t)
  else Ok 0.

(** Line 139: [targets[b.participant_id] -= shortfall]. *)
Definition take_shortfall (targets : dict) (pid shortfall : Z) : result dict :=
  t <- getitem targets pid ;; Ok (setitem targets pid (t - shortfall)).

(** Line 140: [[pid for pid in targets if pid != b.participant_id]]. *)
Definition others_of (targets : dict) (pid : Z) : list Z :=
  filter (fun k => negb (k =? pid)) (keys targets).

(** Line 141: [sum(targets[pid] for pid in others) or 1]. *)
Definition denom_of (targets : dict) (others : list Z) : result Z :=
  ts <- mapM (getitem targets) others ;; Ok (Py.or_ (Py.sum ts) 1).

(** Line 142: the floor shares. *)
Definition floor_shares (targets : dict) (others : list Z)
                        (shortfall denom : Z) : result dict :=
  l <- mapM (fun pid => t <- getitem targets pid ;;
                        q <- Py.floordiv (shortfall * t) denom ;;
                        Ok (pid, q)) others ;;
  Ok (dict_of l).

(** Line 145: [sorted(others, key=lambda x: targets[x], reverse=True)]. *)
Definition by_target_desc (targets : dict) (others : list Z)
  : result (list Z) :=
  keyed <- mapM (fun pid => t <- getitem targets pid ;; Ok (t, pid)) others ;;
  Ok (map snd (Py.sorted_desc keyed)).

(** Lines 139-148: what an accepted bid does to the targets. *)
Definition redistribute (targets : dict) (pid shortfall : Z) : result dict :=
  targets <- take_shortfall targets pid shortfall ;;
  let others := others_of targets pid in
  denom <- denom_of targets others ;;
  add_map <- floor_shares targets others shortfall denom ;;
  let distributed := Py.sum (values add_map) in
  order <- by_target_desc targets others ;;
  add_map <- foldM (fun m p => iadd m p 1)
                   (Py.slice_to order (shortfall - distributed)) add_map ;;
  foldM (fun tg kv => iadd tg (fst kv) (snd kv)) add_map targets.

(** Lines 132-148: the body of the loop over the bids. *)
Definition underpay_bid (targets : dict) (b : Pledge.t) : result dict :=
  shortfall <- bid_shortfall targets b ;;
  if shortfall <=? 0 then Ok targets
  else redistribute targets (Pledge.participant_id b) shortfall.

(** Lines 151-153: the final correction. *)
Definition final_correction (total_cents : Z) (targets : dict) : result dict :=
  let gap := total_cents - Py.sum (values targets) in
  if negb (gap =? 0)
  then k <- max_key targets ;; iadd targets k gap
  else Ok targets.

(** [ev.total_amount], where [ev] is [None] when the event does not exist. *)
Definition total_amount_of (ev : option Event.t) : result decimal :=
  match ev with
  | Some e => Ok (Event.total_amount e)
  | None => Err AttributeError
  end.

(** Lines 108-155. The mapping that is returned is in the insertion order
    of [targets]. *)
Definition compute_allocations (db : Session) (event_id : Z)
  : result (list (Z * decimal)) :=
  let ev := query_event db event_id in
  let parts := query_participants db event_id in
  match parts with
  | [] => Ok []
  | _ :: _ =>
      total <- total_amount_of ev ;;
      total_cents <- cents (Some total) ;;
      targets <- equal_split total_cents parts ;;
      let vops := query_pledges db event_id "volunteer_overpay" in
      targets <- foldM volunteer_overpay vops targets ;;
      let bids := query_pledges db event_id "underpay_bid" in
      targets <- foldM underpay_bid bids targets ;;
      targets <- final_correction total_cents targets ;;
      Ok (map (fun kv => (fst kv, money (snd kv))) targets)
  end.

(** * The routes around [compute_allocations]

    The rest of [src/main.py]: the magic-link tokens (lines 75-102) and the
    routes that write the tables and call [compute_allocations] (lines
    162-235). What the code takes from outside is an argument of the
    function that takes it: [utcnow] is what [datetime.utcnow()] returns,
    [uuid4] is what [str(uuid4())] returns. The [created_at] columns are
    left out, as they are in the tables above. *)

(** A [datetime], counted in microseconds. *)
Definition datetime : Type := Z.

(** [timedelta(hours=h)] and [timedelta(days=d)]. *)
Definition timedelta_hours (h : Z) : Z := h * 3600000000.
Definition timedelta_days (d : Z) : Z := d * 86400000000.

Module User.
Record t : Type := mk {
  id : Z;
  email : string
}.
End User.

Module Invite.
Record t : Type := mk {
  id : Z;
  event_id : Z;
  email : string;
  role : string;
  token : string;
  token_expires_at : option datetime;
  accepted_at : option datetime
}.
End Invite.

(** The tables behind a [Session]: those that [compute_allocations]
    reads, and the users and the invites. *)
Record Store : Type := mkStore {
  tables : Session;
  users : list User.t;
  invites : list Invite.t
}.

(** The primary key that SQLite gives to a row inserted without one: one
    more than the largest id of the table, and 1 in an empty table. *)
Definition next_id (ids : list Z) : Z :=
  match ids with
  | [] => 1
  | x :: l => fold_right Z.max x l + 1
  end.

(** [db.add(User(...)); db.commit()] and the like: the row goes last. *)
Definition add_user (db : Store) (u : User.t) : Store :=
  mkStore (tables db) (users db ++ [u]) (invites db).

Definition add_invite (db : Store) (i : Invite.t) : Store :=
  mkStore (tables db) (users db) (invites db ++ [i]).

Definition add_event (db : Store) (e : Event.t) : Store :=
  mkStore (mkSession (events (tables db) ++ [e]) (participants (tables db))
                     (pledges (tables db)))
          (users db) (invites db).

Definition add_participant (db : Store) (p : Participant.t) : Store :=
  mkStore (mkSession (events (tables db)) (participants (tables db) ++ [p])
                     (pledges (tables db)))
          (users db) (invites db).

Definition add_pledge (db : Store) (p : Pledge.t) : Store :=
  mkStore (mkSession (events (tables db)) (participants (tables db))
                     (pledges (tables db) ++ [p]))
          (users db) (invites db).

(** ** Exceptions of the routes *)

Inductive exception : Type :=
| HTTPException (status_code : Z) (detail : string)
| IntegrityError
| Python (e : error).

(** What a route does: it returns, or it raises, and [db] is the store as
    the commits before the exception left it. *)
Inductive outcome (A : Type) : Type :=
| Returns (a : A)
| Raises (x : exception) (db : Store).

Arguments Returns {A} a.
Arguments Raises {A} x db.

Definition and_then {A B : Type} (m : outcome A) (k : A -> outcome B)
  : outcome B :=
  match m with
  | Returns a => k a
  | Raises x db => Raises x db
  end.

(** ** Strings *)

(** The truth value of a [str]. *)
Definition truthy (s : string) : bool := negb (String.eqb s EmptyString).

(** [str(n)] for an [int]. *)
Definition str_int (n : Z) : string := NilZero.string_of_int (Z.to_int n).

(** [str(s)] for an optional [str], as an f-string prints it. *)
Definition str_opt (s : option string) : string :=
  match s with
  | Some s' => s'
  | None => "None"
  end.

(** [s.split("@")[0]]. *)
Fixpoint before_at (s : string) : string :=
  match s with
  | EmptyString => EmptyString
  | String c s' =>
      if Ascii.eqb c "@"%char then EmptyString else String c (before_at s')
  end.

(** [RedirectResponse(url=..., status_code=...)]. *)
Record RedirectResponse : Type := mkRedirect {
  url : string;
  status_code : Z
}.

(** [f"/event/{event_id}?token={request.query_params.get('token')}"] *)
Definition event_url (event_id : Z) (token : option string) : string :=
  ("/event/" ++ str_int event_id ++ "?token=" ++ str_opt token)%string.

(** ** The magic-link tokens (lines 75-102, 162-166) *)

(** [TOKENS: Dict[str, dict]]; an entry is [{"email": ..., "exp": ...}]. *)
Definition tokens : Type := list (string * (string * datetime)).

(** [TOKENS[token]], and [token in TOKENS] when it is not [None]. *)
Fixpoint tokens_get (d : tokens) (k : string) : option (string * datetime) :=
  match d with
  | [] => None
  | (k', v) :: d' => if String.eqb k' k then Some v else tokens_get d' k
  end.

(** [TOKENS[token] = entry]. *)
Fixpoint tokens_set (d : tokens) (k : string) (v : string * datetime)
  : tokens :=
  match d with
  | [] => [(k, v)]
  | (k', v') :: d' =>
      if String.eqb k' k then (k', v) :: d' else (k', v') :: tokens_set d' k v
  end.

(** Lines 162-166. The new [TOKENS] and the login url. *)
Definition request_magic_link (TOKENS : tokens) (uuid4 : string)
           (utcnow : datetime) (email : string) : tokens * string :=
  let token := uuid4 in
  let TOKENS := tokens_set TOKENS token (email, utcnow + timedelta_hours 2) in
  (TOKENS, ("/events?token=" ++ token)%string).

(** Lines 89-97: [request.state.user_email] as the middleware sets it from
    the [token] of the query. *)
Definition add_demo_user (TOKENS : tokens) (utcnow : datetime)
           (token : option string) : option string :=
  match token with
  | Some t =>
      if truthy t
      then match tokens_get TOKENS t with
           | Some (email, exp) => if utcnow <? exp then Some email else None
           | None => None
           end
      else None
  | None => None
  end.

(** Lines 78-83. *)
Definition get_or_create_user (db : Store) (email : string)
  : Store * User.t :=
  match find (fun u => String.eqb (User.email u) email) (users db) with
  | Some u => (db, u)
  | None =>
      let u := User.mk (next_id (map User.id (users db))) email in
      (add_user db u, u)
  end.

(** Lines 99-102. *)
Definition require_user (user_email : option string) (db : Store)
  : outcome (Store * User.t) :=
  match user_email with
  | Some email =>
      if truthy email then Returns (get_or_create_user db email)
      else Raises (HTTPException 401
                     "Login required. Use an invite link with ?token=...") db
  | None => Raises (HTTPException 401
                      "Login required. Use an invite link with ?token=...") db
  end.

(** ** The routes that write (lines 174-227) *)

(** Lines 174-184. [total_amount] is the decimal that the column holds. *)
Definition create_event (db : Store) (user_email token : option string)
           (title description currency : string) (total_amount : decimal)
  : outcome (Store * RedirectResponse) :=
  and_then (require_user user_email db) (fun '(db, user) =>
  let ev := Event.mk (next_id (map Event.id (events (tables db))))
                     title description currency total_amount "active"
                     (User.id user) in
  let db := add_event db ev in
  let p := Participant.mk
             (next_id (map Participant.id (participants (tables db))))
             (Event.id ev) (User.id user) (before_at (User.email user)) in
  let db := add_participant db p in
  Returns (db, mkRedirect (event_url (Event.id ev) token) 303)).

(** Lines 196-203. The column [token] of the invites is unique. *)
Definition invite (db : Store) (user_email token : option string)
           (uuid4 : string) (utcnow : datetime) (event_id : Z)
           (invite_email : string) : outcome (Store * RedirectResponse) :=
  and_then (require_user user_email db) (fun '(db, _) =>
  let inv := Invite.mk (next_id (map Invite.id (invites db))) event_id
                       invite_email "member" uuid4
                       (Some (utcnow + timedelta_days 7)) None in
  if existsb (fun i => String.eqb (Invite.token i) uuid4) (invites db)
  then Raises IntegrityError db
  else Returns (add_invite db inv, mkRedirect (event_url event_id token) 303)).

(** [db.query(Invite).filter_by(event_id=event_id, token=token).first()] *)
Definition query_invite (db : Store) (event_id : Z) (token : string)
  : option Invite.t :=
  find (fun i => (Invite.event_id i =? event_id)
                 && String.eqb (Invite.token i) token) (invites db).

(** [inv.accepted_at = ...] on the row that [query_invite] returned. *)
Fixpoint set_accepted_at (l : list Invite.t) (event_id : Z) (token : string)
         (at_ : datetime) : list Invite.t :=
  match l with
  | [] => []
  | i :: l' =>
      if (Invite.event_id i =? event_id) && String.eqb (Invite.token i) token
      then Invite.mk (Invite.id i) (Invite.event_id i) (Invite.email i)
                     (Invite.role i) (Invite.token i)
                     (Invite.token_expires_at i) (Some at_) :: l'
      else i :: set_accepted_at l' event_id token at_
  end.

(** Lines 205-216; [utcnow] and [utcnow'] are the two readings of the
    clock, on lines 208 and 210. *)
Definition join (db : Store) (utcnow utcnow' : datetime)
           (request_token : option string) (event_id : Z) (token : string)
  : outcome (Store * RedirectResponse) :=
  match query_invite db event_id token with
  | None => Raises (HTTPException 400 "Invalid or expired invite") db
  | Some inv =>
      match Invite.token_expires_at inv with
      | None => Raises (Python TypeError) db
      | Some expires =>
          if expires <? utcnow
          then Raises (HTTPException 400 "Invalid or expired invite") db
          else
            let db := mkStore (tables db) (users db)
                        (set_accepted_at (invites db) event_id token utcnow') in
            let '(db, user) := get_or_create_user db (Invite.email inv) in
            let exists_ :=
              find (fun p => (Participant.event_id p =? event_id)
                             && (Participant.user_id p =? User.id user))
                   (participants (tables db)) in
            let db :=
              match exists_ with
              | Some _ => db
              | None =>
                  add_participant db
                    (Participant.mk
                       (next_id (map Participant.id
                                     (participants (tables db))))
                       event_id (User.id user) (before_at (User.email user)))
              end in
            Returns (db, mkRedirect (event_url event_id request_token) 303)
      end
  end.

(** Lines 218-227. [value] is the decimal that the column holds. *)
Definition pledge (db : Store) (user_email token : option string)
           (event_id participant_id : Z) (ptype : string)
           (value_type : option string) (value : option decimal)
  : outcome (Store * RedirectResponse) :=
  and_then (require_user user_email db) (fun '(db, _) =>
  let active := negb (String.eqb ptype "underpay_bid") in
  let db := add_pledge db
              (Pledge.mk (next_id (map Pledge.id (pledges (tables db))))
                         event_id participant_id ptype value_type value
                         active) in
  Returns (db, mkRedirect (event_url event_id token) 303)).

(** ** The routes that read the allocations (lines 186-194, 229-235) *)

(** [allocs.get(pid, 0.0)]. *)
Fixpoint allocs_get (allocs : list (Z * decimal)) (pid : Z) (default : decimal)
  : decimal :=
  match allocs with
  | [] => default
  | (k, v) :: allocs' => if k =? pid then v else allocs_get allocs' pid default
  end.

(** The context that [event_page] hands to its template (lines 186-194). *)
Record EventPage : Type := mkEventPage {
  page_email : option string;
  page_ev : option Event.t;
  page_parts : list Participant.t;
  page_pledges : list Pledge.t;
  page_allocs : list (Z * decimal)
}.

Definition event_page (db : Session) (user_email : option string)
           (event_id : Z) : result EventPage :=
  let email := user_email in
  let ev := query_event db event_id in
  let parts := query_participants db event_id in
  let pledges := filter (fun p => Pledge.event_id p =? event_id) (pledges db) in
  allocs <- compute_allocations db event_id ;;
  Ok (mkEventPage email ev parts pledges allocs).

(** [p.display_name or f"User {p.user_id}"] *)
Definition label_of (p : Participant.t) : string :=
  if truthy (Participant.display_name p) then Participant.display_name p
  else ("User " ++ str_int (Participant.user_id p))%string.

(** Lines 229-235: the labels and the values of the chart. *)
Definition chart_data (db : Session) (event_id : Z)
  : result (list string * list decimal) :=
  allocs <- compute_allocations db event_id ;;
  let parts := query_participants db event_id in
  let labels := map label_of parts in
  let values := map (fun p => allocs_get allocs (Participant.id p) (Dec 0))
                    parts in
  Ok (labels, values).

(** * Vocabulary of the statements *)

(** The step of the comprehension [dict_of]. *)
Definition step_setitem (d : dict) (kv : Z * Z) : dict :=
  setitem d (fst kv) (snd kv).

(** The value under a key of the dictionary ([0] under an absent key, which
    the statements below never look at). *)
Definition value_at (d : dict) (k : Z) : Z :=
  match getitem d k with
  | Ok v => v
  | Err _ => 0
  end.

(** [x] comes before [y] in a list sorted by descending key. *)
Definition desc (x y : Z * Z) : Prop := fst y <= fst x.

(** A pledge whose value type is percent or fixed has a value. *)
Definition carries_value (p : Pledge.t) : bool :=
  if is_value_type (Pledge.value_type p) "percent"
     || is_value_type (Pledge.value_type p) "fixed"
  then match Pledge.value p with Some _ => true | None => false end
  else true.

(** The targets once the bidder has given up the shortfall (line 139). *)
Definition after_take (targets : dict) (pid shortfall : Z) : dict :=
  setitem targets pid (value_at targets pid - shortfall).

(** The denominator of line 141. *)
Definition denom_at (targets : dict) (others : list Z) : Z :=
  Py.or_ (Py.sum (map (value_at targets) others)) 1.

(** The floor share of [p] (line 142). *)
Definition floor_share (targets : dict) (others : list Z) (shortfall p : Z) : Z :=
  shortfall * value_at targets p / denom_at targets others.

(** The items of [add_map] before the leftover cents (line 142). *)
Definition floors_at (targets : dict) (others : list Z) (shortfall : Z)
  : list (Z * Z) :=
  map (fun p => (p, floor_share targets others shortfall p)) others.

(** The cents that the floor shares leave (line 145). *)
Definition leftover_at (targets : dict) (others : list Z) (shortfall : Z) : Z :=
  shortfall - Py.sum (map (floor_share targets others shortfall) others).

(** The other participants by descending target (line 145). *)
Definition order_at (targets : dict) (others : list Z) : list Z :=
  map snd (Py.sorted_desc (map (fun p => (value_at targets p, p)) others)).

(** The slice of line 145. *)
Definition winners_at (targets : dict) (others : list Z) (shortfall : Z)
  : list Z :=
  Py.slice_to (order_at targets others)
    (shortfall - Py.sum (values (dict_of (floors_at targets others shortfall)))).

(** The sum of the amounts of a returned mapping, in cents. *)
Definition total_of (m : list (Z * decimal)) : Z :=
  Py.sum (map (fun kv => hundredths (snd kv)) m).

(** The active pledges of the event. *)
Definition active_pledges (db : Session) (event_id : Z) : list Pledge.t :=
  filter (fun p => (Pledge.event_id p =? event_id) && Pledge.active p)
         (pledges db).


(** The targets when the loop over the bids reaches its [n]-th bid
    (counted from 0), and after the loop for the [n] past the last. *)
Definition targets_at_bid (db : Session) (event_id : Z) (n : nat)
  : result dict :=
  total <- total_amount_of (query_event db event_id) ;;
  total_cents <- cents (Some total) ;;
  targets <- equal_split total_cents (query_participants db event_id) ;;
  targets <- foldM volunteer_overpay
                   (query_pledges db event_id "volunteer_overpay") targets ;;
  foldM underpay_bid
        (firstn n (query_pledges db event_id "underpay_bid")) targets.

(** The keys of [targets] are the participant ids, each once. *)
Definition good_keys (parts : list Participant.t) (targets : dict) : Prop :=
  NoDup (keys targets) /\
  forall x, In x (keys targets) <-> In x (map Participant.id parts).

(** What [compute_allocations] reads of a pledge that a query returned. *)
Definition pledge_input (p : Pledge.t)
  : Z * string * option string * option decimal :=
  (Pledge.participant_id p, Pledge.type p, Pledge.value_type p,
   Pledge.value p).

(** The session [db] with another table of pledges. *)
Definition with_pledges (db : Session) (ps : list Pledge.t) : Session :=
  mkSession (events db) (participants db) ps.

(** The pledges that are not of type equal. *)
Definition without_equal (ps : list Pledge.t) : list Pledge.t :=
  filter (fun p => negb (String.eqb (Pledge.type p) "equal")) ps.

(** An amount in hundredths, or a target in cents, of the size that a
    [Numeric(12, 2)] column is declared to hold: twelve digits at most. On
    amounts of this size the binary floats of lines 105, 106, 124 and 134
    lose nothing: [cents] is the hundredths of the decimal, [money] the
    decimal of the cents, and a percentage of at most 100 of a target is
    at most the target. *)
Definition fits_column (c : Z) : bool := Z.abs c <? 1000000000000.

(** The value of a pledge, when it has one, fits its column. *)
Definition value_fits (value : option decimal) : bool :=
  match value with
  | Some d => fits_column (hundredths d)
  | None => true
  end.

(** [pid] is one of the participant ids [ids]. *)
Definition is_participant (ids : list Z) (pid : Z) : bool :=
  existsb (fun x => x =? pid) ids.

(** What the overpay loop needs of a pledge: its participant is looked up
    whatever the value type, and its value is read when the value type is
    percent or fixed. *)
Definition overpay_readable (ids : list Z) (v : Pledge.t) : bool :=
  is_participant ids (Pledge.participant_id v) && carries_value v.

(** What the loop over the bids needs of a bid: a bid whose value type is
    neither percent nor fixed is skipped before anything of it is read. *)
Definition bid_readable (ids : list Z) (b : Pledge.t) : bool :=
  if is_value_type (Pledge.value_type b) "percent"
     || is_value_type (Pledge.value_type b) "fixed"
  then is_participant ids (Pledge.participant_id b) && carries_value b
  else true.

(** The pledges that the two loops read can all be read. *)
Definition readable (db : Session) (event_id : Z) : bool :=
  let ids := map Participant.id (query_participants db event_id) in
  forallb (overpay_readable ids)
          (query_pledges db event_id "volunteer_overpay")
  && forallb (bid_readable ids) (query_pledges db event_id "underpay_bid").

(** No value of the dictionary is negative. *)
Definition nonneg (d : dict) : Prop := Forall (fun kv => 0 <= snd kv) d.

(** An overpay that is not negative: the value when the value type is
    percent or fixed. *)
Definition overpay_in_range (v : Pledge.t) : bool :=
  if is_value_type (Pledge.value_type v) "percent"
     || is_value_type (Pledge.value_type v) "fixed"
  then match Pledge.value v with
       | Some d => 0 <=? hundredths d
       | None => true
       end
  else true.

(** A percent bid between 0 and 100. *)
Definition bid_in_range (b : Pledge.t) : bool :=
  if is_value_type (Pledge.value_type b) "percent"
  then match Pledge.value b with
       | Some d => (0 <=? hundredths d) && (hundredths d <=? 10000)
       | None => true
       end
  else true.

(** The store that a route leaves, whether it returns or raises. *)
Definition left_by {A : Type} (o : outcome (Store * A)) : Store :=
  match o with
  | Returns (db, _) => db
  | Raises _ db => db
  end.

(** The constraints that the tables declare: the primary keys, the unique
    email of a user and the unique token of an invite. *)
Definition constraints_hold (db : Store) : Prop :=
  NoDup (map Event.id (events (tables db))) /\
  NoDup (map Participant.id (participants (tables db))) /\
  NoDup (map Pledge.id (pledges (tables db))) /\
  NoDup (map User.id (users db)) /\
  NoDup (map User.email (users db)) /\
  NoDup (map Invite.id (invites db)) /\
  NoDup (map Invite.token (invites db)).

(** The user of the email [email] is a participant of the event: the two
    queries of [join], on its lines 211 and 212, find a user and a
    participant. *)
Definition participates (db : Store) (email : string) (event_id : Z) : Prop :=
  exists u p,
    find (fun u => String.eqb (User.email u) email) (users db) = Some u /\
    find (fun p => (Participant.event_id p =? event_id)
                   && (Participant.user_id p =? User.id u))
         (participants (tables db)) = Some p.

(** The exception of an overpay pledge whose participant is not a key of
    [targets] (lines 122-127): the value of a fixed pledge is read before
    the participant is looked up. *)
Definition unknown_participant_error (value_type : option string)
           (value : option decimal) : error :=
  if negb (is_value_type value_type "percent")
     && is_value_type value_type "fixed"
     && match value with None => true | Some _ => false end
  then TypeError else KeyError.

(** * Example data: one event with the participants A, B and C *)

Module Ex.

Definition A : Z := 1.
Definition B : Z := 2.
Definition C : Z := 3.

(** The event 1, with its total in cents. *)
Definition event (total : Z) : Event.t :=
  Event.mk 1 "dinner" "shared" "AUD" (Dec total) "active" 10.

Definition participant (pid : Z) (name : string) : Participant.t :=
  Participant.mk pid 1 (10 + pid) name.

Definition three : list Participant.t :=
  [participant A "a"; participant B "b"; participant C "c"].

(** An active pledge of the event 1; [v] is the value in hundredths. *)
Definition pledge (n pid : Z) (ty vt : string) (v : Z) : Pledge.t :=
  Pledge.mk n 1 pid ty (Some vt) (Some (Dec v)) true.

Definition db (total : Z) (ps : list Pledge.t) : Session :=
  mkSession [event total] three ps.

(** 300 cents, A overpays a fixed 50 cents. *)
Definition fixed_overpay : Session :=
  db 300 [pledge 1 A "volunteer_overpay" "fixed" 50].

(** 300 cents, A bids to pay 50 percent less. *)
Definition percent_underpay : Session :=
  db 300 [pledge 1 A "underpay_bid" "percent" 5000].

(** 300 cents, A bids to pay 150 percent less. *)
Definition percent_overdrawn : Session :=
  db 300 [pledge 1 A "underpay_bid" "percent" 15000].

(** 300 cents, A bids to pay -50 percent less. *)
Definition negative_percent : Session :=
  db 300 [pledge 1 A "underpay_bid" "percent" (-5000)].

(** 100 cents, C bids to pay 50 percent less: the floors leave one cent. *)
Definition leftover_cent : Session :=
  db 100 [pledge 1 C "underpay_bid" "percent" 5000].

(** 100 cents, an overpay and two bids, and pledges that are not read. *)
Definition mixed : Session :=
  db 100 [pledge 1 B "volunteer_overpay" "percent" 1000;
          pledge 2 A "equal" "fixed" 700;
          pledge 3 C "underpay_bid" "fixed" 2000;
          Pledge.mk 4 1 A "underpay_bid" (Some "percent"%string)
                    (Some (Dec 2500)) false;
          pledge 5 A "underpay_bid" "percent" 3300].

(** An event that nobody has joined. *)
Definition nobody : Session :=
  mkSession [event 300] [Participant.mk 7 2 17 "z"]
            [pledge 1 7 "underpay_bid" "percent" 5000].

End Ex.

Module Ex2.

(** The data of [Ex.mixed] under other ids, names and titles, among the
    rows of another event and with other inactive pledges. *)
Definition mixed_again : Session :=
  mkSession
    [Ex.event 300; Event.mk 5 "lunch" "again" "EUR" (Dec 100) "draft" 11]
    [Participant.mk 9 1 20 "x"; Participant.mk Ex.A 5 21 "anna";
     Participant.mk Ex.B 5 22 "ben"; Participant.mk Ex.C 5 23 "cy"]
    [Pledge.mk 11 5 Ex.B "volunteer_overpay" (Some "percent"%string)
               (Some (Dec 1000)) true;
     Pledge.mk 12 1 9 "underpay_bid" (Some "fixed"%string)
               (Some (Dec 10)) true;
     Pledge.mk 13 5 Ex.A "equal" (Some "fixed"%string) (Some (Dec 700)) true;
     Pledge.mk 14 5 Ex.C "underpay_bid" (Some "fixed"%string)
               (Some (Dec 2000)) true;
     Pledge.mk 15 5 Ex.B "underpay_bid" None None false;
     Pledge.mk 16 5 Ex.A "underpay_bid" (Some "percent"%string)
               (Some (Dec 3300)) true].

(** The pledges of [Ex.mixed] with other pledges of type equal. *)
Definition other_equal_pledges : list Pledge.t :=
  [Pledge.mk 8 1 Ex.C "equal" None None true;
   Ex.pledge 1 Ex.B "volunteer_overpay" "percent" 1000;
   Ex.pledge 3 Ex.C "underpay_bid" "fixed" 2000;
   Pledge.mk 4 1 Ex.A "underpay_bid" (Some "percent"%string)
             (Some (Dec 2500)) false;
   Pledge.mk 9 1 77 "equal" (Some "percent"%string) (Some (Dec (-100))) false;
   Ex.pledge 5 Ex.A "underpay_bid" "percent" 3300].

End Ex2.

Module Ex3.


(** The tables of [Ex.mixed], the users of its participants and one
    invite. *)
Definition store : Store :=
  mkStore Ex.mixed
          [User.mk 11 "a@example.org"; User.mk 12 "b@example.org";
           User.mk 13 "c@example.org"]
          [Invite.mk 1 1 "d@example.org" "member" "tok-d" (Some 5000) None].

(** The tokens of one login. *)
Definition TOKENS : tokens := [("tok-a"%string, ("a@example.org"%string, 9000))].

End Ex3.

Module Ex4.

(** 300 cents, A and B; B bids to pay 100 percent less, then A does. *)
Definition two_bidders : Session :=
  mkSession [Ex.event 300] [Ex.participant Ex.A "a"; Ex.participant Ex.B "b"]
            [Ex.pledge 1 Ex.B "underpay_bid" "percent" 10000;
             Ex.pledge 2 Ex.A "underpay_bid" "percent" 10000].

End Ex4.

(** * Properties *)

(** ** The monad and the loops *)

Lemma bind_Ok_inv {A B : Type} (m : result A) (k : A -> result B) (b : B) :
  bind m k = Ok b -> exists a, m = Ok a /\ k a = Ok b.
Proof.
  destruct m as [a | e]; simpl; intros H.
  - exists a; split; [reflexivity | exact H].
  - discriminate H.
Qed.

(** Splits a hypothesis [bind m k = Ok b] into its two runs. *)
Ltac bind_inv H :=
  let a := fresh "a" in
  let Ha := fresh "Ha" in
  apply bind_Ok_inv in H; destruct H as [a [Ha H]].

(** A loop keeps an invariant [P] and does not raise when its body does so
    on every element that satisfies [Q]. *)
Lemma foldM_invariant {A S : Type} (body : S -> A -> result S)
      (P : S -> Prop) (Q : A -> Prop) :
  (forall s x, P s -> Q x -> exists s', body s x = Ok s' /\ P s') ->
  forall l s, P s -> Forall Q l -> exists s', foldM body l s = Ok s' /\ P s'.
Proof.
  intros Hbody l; induction l as [| x l IH]; intros s Hs Hl; simpl.
  - exists s; auto.
  - inversion Hl as [| ? ? Hx Hl']; subst.
    destruct (Hbody s x Hs Hx) as [s1 [E1 P1]].
    rewrite E1; simpl. apply IH; assumption.
Qed.

(** The same for the loops that did return. *)
Lemma foldM_preserves {A S : Type} (body : S -> A -> result S)
      (P : S -> Prop) :
  (forall s x s', P s -> body s x = Ok s' -> P s') ->
  forall l s s', P s -> foldM body l s = Ok s' -> P s'.
Proof.
  intros Hbody l; induction l as [| x l IH]; intros s s' Hs H; simpl in H.
  - injection H as <-; exact Hs.
  - bind_inv H. eapply IH; [| exact H]. eapply Hbody; eassumption.
Qed.

Lemma foldM_app {A S : Type} (body : S -> A -> result S) (l1 l2 : list A)
      (s : S) :
  foldM body (l1 ++ l2) s = (s' <- foldM body l1 s ;; foldM body l2 s').
Proof.
  revert s; induction l1 as [| x l1 IH]; intros s; simpl; [reflexivity |].
  destruct (body s x) as [s1 | e]; simpl; [apply IH | reflexivity].
Qed.

Lemma mapM_Ok {A B : Type} (f : A -> result B) (g : A -> B) (l : list A) :
  (forall x, In x l -> f x = Ok (g x)) -> mapM f l = Ok (map g l).
Proof.
  induction l as [| x l IH]; intros H; simpl; [reflexivity |].
  rewrite (H x (or_introl eq_refl)); simpl.
  rewrite IH by (intros y Hy; apply H; right; exact Hy). reflexivity.
Qed.

(** ** Python primitives *)

Lemma fold_add_shift (l : list Z) (a b : Z) :
  fold_left Z.add l (a + b) = a + fold_left Z.add l b.
Proof.
  revert b; induction l as [| x l IH]; intros b; simpl; [reflexivity |].
  rewrite <- IH. f_equal. lia.
Qed.

Lemma sum_acc (l : list Z) (a : Z) : fold_left Z.add l a = a + Py.sum l.
Proof.
  unfold Py.sum. rewrite <- fold_add_shift. f_equal. lia.
Qed.

Lemma sum_cons (x : Z) (l : list Z) : Py.sum (x :: l) = x + Py.sum l.
Proof. unfold Py.sum at 1; simpl. rewrite sum_acc. lia. Qed.

Lemma sum_nil : Py.sum [] = 0.
Proof. reflexivity. Qed.


Lemma round_half_even_exact (n d : Z) :
  0 < d -> Py.round_half_even (n * d) d = n.
Proof.
  intros Hd. unfold Py.round_half_even.
  rewrite Z.div_mul, Z.mod_mul by lia.
  destruct (Z.ltb_spec (2 * 0) d); [reflexivity | lia].
Qed.

(** The nearest integer of [n / d] is [q] when [n / d] is less than half
    above [q]. *)
Lemma round_half_even_near (q r d : Z) :
  0 <= r -> 2 * r < d -> Py.round_half_even (q * d + r) d = q.
Proof.
  intros Hr Hd. unfold Py.round_half_even.
  assert (Hq : (q * d + r) / d = q).
  { symmetry. apply (Z.div_unique_pos _ d q r); lia. }
  assert (Hm : (q * d + r) mod d = r).
  { symmetry. apply (Z.mod_unique_pos _ d q r); lia. }
  rewrite Hq, Hm.
  destruct (Z.ltb_spec (2 * r) d); [reflexivity | lia].
Qed.

(** [cents] gives back the hundredths of a decimal. *)
Lemma cents_Some (d : decimal) : cents (Some d) = Ok (hundredths d).
Proof.
  unfold cents, float, Py.round; simpl.
  f_equal. apply round_half_even_exact. lia.
Qed.

(** [money] gives the decimal whose hundredths are the cents. *)
Lemma money_hundredths (c : Z) : hundredths (money c) = c.
Proof.
  unfold money, Py.round; simpl.
  replace ((c * 1 * 1000000000 + 100) * 100)
    with (c * 100000000000 + 10000) by lia.
  apply round_half_even_near; lia.
Qed.

(** ** Dictionaries *)

Lemma getitem_In_keys (d : dict) (k v : Z) :
  getitem d k = Ok v -> In k (keys d).
Proof.
  induction d as [| [k' v'] d IH]; simpl; [discriminate |].
  destruct (Z.eqb_spec k' k); intros H; [left; assumption | right; auto].
Qed.

Lemma In_keys_getitem (d : dict) (k : Z) :
  In k (keys d) -> exists v, getitem d k = Ok v.
Proof.
  induction d as [| [k' v'] d IH]; simpl; [intros [] |].
  destruct (Z.eqb_spec k' k) as [-> | Hne]; intros H.
  - exists v'; reflexivity.
  - destruct H as [H | H]; [contradiction | auto].
Qed.

Lemma getitem_not_In (d : dict) (k : Z) :
  ~ In k (keys d) -> getitem d k = Err KeyError.
Proof.
  induction d as [| [k' v'] d IH]; simpl; [reflexivity |].
  intros H. destruct (Z.eqb_spec k' k); [tauto | apply IH; tauto].
Qed.

Lemma setitem_new (d : dict) (k v : Z) :
  ~ In k (keys d) -> setitem d k v = d ++ [(k, v)].
Proof.
  induction d as [| [k' v'] d IH]; simpl; [reflexivity |].
  intros H. destruct (Z.eqb_spec k' k); [tauto |].
  rewrite IH by tauto. reflexivity.
Qed.

Lemma keys_setitem (d : dict) (k v : Z) :
  In k (keys d) -> keys (setitem d k v) = keys d.
Proof.
  induction d as [| [k' v'] d IH]; simpl; [intros [] |].
  destruct (Z.eqb_spec k' k) as [-> | Hne]; intros H; simpl.
  - reflexivity.
  - destruct H as [H | H]; [contradiction |]. rewrite IH by assumption.
    reflexivity.
Qed.

Lemma getitem_setitem_same (d : dict) (k v : Z) :
  getitem (setitem d k v) k = Ok v.
Proof.
  induction d as [| [k' v'] d IH]; simpl.
  - rewrite Z.eqb_refl; reflexivity.
  - destruct (Z.eqb_spec k' k) as [-> | Hne]; simpl.
    + rewrite Z.eqb_refl; reflexivity.
    + destruct (Z.eqb_spec k' k); [contradiction | exact IH].
Qed.

Lemma getitem_setitem_other (d : dict) (k k' v : Z) :
  k <> k' -> getitem (setitem d k v) k' = getitem d k'.
Proof.
  intros Hne. induction d as [| [k0 v0] d IH]; simpl.
  - destruct (Z.eqb_spec k k'); [contradiction | reflexivity].
  - destruct (Z.eqb_spec k0 k) as [-> | Hk]; simpl.
    + destruct (Z.eqb_spec k k'); [contradiction | reflexivity].
    + rewrite IH; reflexivity.
Qed.

Lemma sum_setitem (d : dict) (k v v' : Z) :
  getitem d k = Ok v ->
  Py.sum (values (setitem d k v')) = Py.sum (values d) - v + v'.
Proof.
  induction d as [| [k0 v0] d IH]; simpl; [discriminate |].
  destruct (Z.eqb_spec k0 k) as [-> | Hk]; intros H; simpl.
  - injection H as ->. rewrite !sum_cons. lia.
  - fold (values (setitem d k v')) (values d).
    rewrite !sum_cons, IH by assumption. lia.
Qed.

(** [d[k] += c] keeps the keys, and the sum of the values grows by [c]. *)
Lemma iadd_Ok_inv (d d' : dict) (k c : Z) :
  iadd d k c = Ok d' ->
  exists v, getitem d k = Ok v /\ d' = setitem d k (v + c) /\
            keys d' = keys d /\
            Py.sum (values d') = Py.sum (values d) + c.
Proof.
  unfold iadd; intros H. bind_inv H. injection H as <-.
  exists a; repeat split; try assumption.
  - apply keys_setitem. eapply getitem_In_keys; eassumption.
  - rewrite (sum_setitem _ _ a) by assumption. lia.
Qed.

Lemma iadd_In (d : dict) (k c : Z) :
  In k (keys d) -> exists d', iadd d k c = Ok d' /\ keys d' = keys d.
Proof.
  intros H. destruct (In_keys_getitem _ _ H) as [v Hv].
  exists (setitem d k (v + c)). unfold iadd; rewrite Hv; simpl.
  split; [reflexivity | apply keys_setitem; assumption].
Qed.

Lemma NoDup_keys_setitem (d : dict) (k v : Z) :
  NoDup (keys d) -> NoDup (keys (setitem d k v)).
Proof.
  intros H. destruct (in_dec Z.eq_dec k (keys d)) as [Hin | Hout].
  - rewrite keys_setitem; assumption.
  - rewrite setitem_new by assumption. unfold keys; rewrite map_app; simpl.
    apply NoDup_app; [assumption | constructor; [intros [] | constructor] |].
    intros x Hx [<- | []]. contradiction.
Qed.

Lemma In_keys_setitem (d : dict) (k v x : Z) :
  In x (keys (setitem d k v)) <-> x = k \/ In x (keys d).
Proof.
  destruct (in_dec Z.eq_dec k (keys d)) as [Hin | Hout].
  - rewrite keys_setitem by assumption. split; [auto |].
    intros [-> | H]; assumption.
  - rewrite setitem_new by assumption. unfold keys; rewrite map_app, in_app_iff.
    simpl. intuition.
Qed.

Lemma dict_of_fold (l : list (Z * Z)) : dict_of l = fold_left step_setitem l [].
Proof. reflexivity. Qed.

Lemma fold_setitem_NoDup (l : list (Z * Z)) (d : dict) :
  NoDup (keys d) -> NoDup (keys (fold_left step_setitem l d)).
Proof.
  revert d; induction l as [| kv l IH]; intros d H; simpl; [exact H |].
  apply IH, NoDup_keys_setitem, H.
Qed.

Lemma fold_setitem_In (l : list (Z * Z)) (d : dict) (x : Z) :
  In x (keys (fold_left step_setitem l d)) <-> In x (keys d) \/ In x (map fst l).
Proof.
  revert d; induction l as [| kv l IH]; intros d; simpl; [tauto |].
  rewrite IH. unfold step_setitem. rewrite In_keys_setitem. intuition.
Qed.

Lemma fold_setitem_fresh (l : list (Z * Z)) (d : dict) :
  NoDup (keys d ++ map fst l) -> fold_left step_setitem l d = d ++ l.
Proof.
  revert d; induction l as [| [k v] l IH]; intros d H; simpl.
  - rewrite app_nil_r; reflexivity.
  - unfold step_setitem at 2; simpl fst; simpl snd.
    assert (Hk : ~ In k (keys d)).
    { intros Hin. apply NoDup_remove_2 in H. apply H, in_or_app. auto. }
    rewrite setitem_new by assumption. rewrite IH.
    + rewrite <- app_assoc; reflexivity.
    + unfold keys; rewrite map_app; simpl. rewrite <- app_assoc; simpl.
      exact H.
Qed.

Lemma NoDup_keys_dict_of (l : list (Z * Z)) : NoDup (keys (dict_of l)).
Proof. rewrite dict_of_fold. apply fold_setitem_NoDup. constructor. Qed.

Lemma In_keys_dict_of (l : list (Z * Z)) (x : Z) :
  In x (keys (dict_of l)) <-> In x (map fst l).
Proof. rewrite dict_of_fold, fold_setitem_In. simpl. tauto. Qed.

(** A comprehension over pairwise different keys is the list of its items. *)
Lemma dict_of_NoDup (l : list (Z * Z)) : NoDup (map fst l) -> dict_of l = l.
Proof.
  intros H. rewrite dict_of_fold, fold_setitem_fresh; [reflexivity | exact H].
Qed.

Lemma getitem_value_at (d : dict) (k : Z) :
  In k (keys d) -> getitem d k = Ok (value_at d k).
Proof.
  intros H. unfold value_at. destruct (In_keys_getitem _ _ H) as [v ->].
  reflexivity.
Qed.

Lemma value_at_Ok (d : dict) (k v : Z) : getitem d k = Ok v -> value_at d k = v.
Proof. unfold value_at; intros ->; reflexivity. Qed.

Lemma value_at_setitem_same (d : dict) (k v : Z) :
  value_at (setitem d k v) k = v.
Proof. unfold value_at; rewrite getitem_setitem_same; reflexivity. Qed.

Lemma value_at_setitem_other (d : dict) (k k' v : Z) :
  k <> k' -> value_at (setitem d k v) k' = value_at d k'.
Proof.
  intros H. unfold value_at; rewrite getitem_setitem_other by assumption.
  reflexivity.
Qed.

(** ** Slices and the descending sort *)

Lemma firstn_incl {A : Type} (n : nat) (l : list A) (x : A) :
  In x (firstn n l) -> In x l.
Proof.
  intros H. rewrite <- (firstn_skipn n l). apply in_or_app; left; exact H.
Qed.

Lemma slice_to_incl {A : Type} (l : list A) (n : Z) (x : A) :
  In x (Py.slice_to l n) -> In x l.
Proof.
  unfold Py.slice_to. destruct (0 <=? n); apply firstn_incl.
Qed.

Lemma slice_to_nonneg {A : Type} (l : list A) (n : Z) :
  0 <= n -> Py.slice_to l n = firstn (Z.to_nat n) l.
Proof.
  intros H. unfold Py.slice_to. destruct (Z.leb_spec 0 n); [reflexivity | lia].
Qed.

Lemma insert_desc_perm (x : Z * Z) (l : list (Z * Z)) :
  Permutation (x :: l) (Py.insert_desc x l).
Proof.
  induction l as [| y l IH]; simpl; [apply Permutation_refl |].
  destruct (fst x <? fst y); [| apply Permutation_refl].
  eapply perm_trans; [apply perm_swap |]. apply perm_skip, IH.
Qed.

Lemma sorted_desc_perm (l : list (Z * Z)) : Permutation l (Py.sorted_desc l).
Proof.
  induction l as [| x l IH]; simpl; [apply perm_nil |].
  eapply perm_trans; [apply perm_skip, IH | apply insert_desc_perm].
Qed.

Lemma insert_desc_sorted (x : Z * Z) (l : list (Z * Z)) :
  StronglySorted desc l -> StronglySorted desc (Py.insert_desc x l).
Proof.
  induction l as [| y l IH]; simpl; intros H.
  - constructor; [constructor | constructor].
  - inversion H as [| ? ? Hl Hy]; subst.
    destruct (Z.ltb_spec (fst x) (fst y)) as [Hlt | Hge].
    + constructor; [apply IH; assumption |].
      apply Forall_forall. intros z Hz.
      apply (Permutation_in _ (Permutation_sym (insert_desc_perm x l))) in Hz.
      destruct Hz as [<- | Hz]; [unfold desc; lia |].
      rewrite Forall_forall in Hy. apply Hy, Hz.
    + constructor; [exact H |]. constructor; [unfold desc; lia |].
      apply Forall_forall. intros z Hz. rewrite Forall_forall in Hy.
      specialize (Hy z Hz). unfold desc in *; lia.
Qed.

Lemma sorted_desc_sorted (l : list (Z * Z)) :
  StronglySorted desc (Py.sorted_desc l).
Proof.
  induction l as [| x l IH]; simpl; [constructor |].
  apply insert_desc_sorted, IH.
Qed.

(** ** The phases keep the keys of [targets] and do not raise *)

Lemma floordiv_Ok (a b : Z) : b <> 0 -> Py.floordiv a b = Ok (a / b).
Proof.
  intros H. unfold Py.floordiv. destruct (Z.eqb_spec b 0); [contradiction |].
  reflexivity.
Qed.

Lemma or_1_nonzero (x : Z) : Py.or_ x 1 <> 0.
Proof. unfold Py.or_. destruct (Z.eqb_spec x 0); lia. Qed.

(** The loops of the form [for ...: d[key] += amount]. *)
Lemma foldM_iadd_Ok {A : Type} (key amount : A -> Z) (l : list A) (d : dict) :
  (forall x, In x l -> In (key x) (keys d)) ->
  exists d', foldM (fun m x => iadd m (key x) (amount x)) l d = Ok d' /\
             keys d' = keys d.
Proof.
  intros H.
  apply (foldM_invariant _ (fun m => keys m = keys d)
                           (fun x => In (key x) (keys d))).
  - intros s x Hs Hx. rewrite <- Hs in Hx.
    destruct (iadd_In s (key x) (amount x) Hx) as [s' [E K]].
    exists s'; split; [exact E | congruence].
  - reflexivity.
  - apply Forall_forall, H.
Qed.

(** The keys of the equal split are the participant ids. *)
Lemma equal_split_Ok (total_cents : Z) (parts : list Participant.t) :
  parts <> [] ->
  exists targets,
    equal_split total_cents parts = Ok targets /\
    NoDup (keys targets) /\
    forall x, In x (keys targets) <-> In x (map Participant.id parts).
Proof.
  intros Hne. unfold equal_split.
  rewrite floordiv_Ok by (destruct parts; [congruence | simpl; lia]).
  simpl bind.
  set (base := total_cents / Z.of_nat (List.length parts)).
  set (d := dict_of (map (fun p => (Participant.id p, base)) parts)).
  assert (Hd : forall x, In x (keys d) <-> In x (map Participant.id parts)).
  { intros x. unfold d. rewrite In_keys_dict_of, map_map. simpl. tauto. }
  destruct (foldM_iadd_Ok Participant.id (fun _ => 1)
              (Py.slice_to parts
                 (total_cents - base * Z.of_nat (List.length parts))) d)
    as [tg [E K]].
  - intros p Hp. apply Hd, in_map, (slice_to_incl _ _ _ Hp).
  - exists tg. split; [exact E |]. rewrite K. split; [| exact Hd].
    apply NoDup_keys_dict_of.
Qed.

Lemma percent_of_Ok (targets : dict) (pid : Z) (d : decimal) :
  In pid (keys targets) ->
  percent_of targets pid (Some d)
  = Ok (Py.round (inject_Z (value_at targets pid) * (hundredths d # 100) / 100)).
Proof.
  intros H. unfold percent_of. rewrite (getitem_value_at _ _ H). reflexivity.
Qed.

(** ** What [redistribute] computes *)

Lemma take_shortfall_Ok (targets : dict) (pid shortfall : Z) :
  In pid (keys targets) ->
  take_shortfall targets pid shortfall = Ok (after_take targets pid shortfall).
Proof.
  intros H. unfold take_shortfall. rewrite (getitem_value_at _ _ H).
  reflexivity.
Qed.

Lemma keys_after_take (targets : dict) (pid shortfall : Z) :
  In pid (keys targets) ->
  keys (after_take targets pid shortfall) = keys targets.
Proof. intros H. apply keys_setitem, H. Qed.

Lemma others_of_In (targets : dict) (pid p : Z) :
  In p (others_of targets pid) <-> In p (keys targets) /\ p <> pid.
Proof.
  unfold others_of. rewrite filter_In.
  destruct (Z.eqb_spec p pid); simpl; intuition congruence.
Qed.

Lemma others_of_NoDup (targets : dict) (pid : Z) :
  NoDup (keys targets) -> NoDup (others_of targets pid).
Proof. apply NoDup_filter. Qed.

Lemma denom_of_Ok (targets : dict) (others : list Z) :
  incl others (keys targets) ->
  denom_of targets others = Ok (denom_at targets others).
Proof.
  intros H. unfold denom_of.
  rewrite (mapM_Ok _ (value_at targets)); [reflexivity |].
  intros p Hp. apply getitem_value_at, H, Hp.
Qed.

Lemma floor_shares_Ok (targets : dict) (others : list Z) (shortfall : Z) :
  incl others (keys targets) ->
  floor_shares targets others shortfall (denom_at targets others)
  = Ok (dict_of (floors_at targets others shortfall)).
Proof.
  intros H. unfold floor_shares, floors_at.
  rewrite (mapM_Ok _ (fun p => (p, floor_share targets others shortfall p)));
    [reflexivity |].
  intros p Hp. rewrite (getitem_value_at _ _ (H p Hp)). simpl.
  rewrite floordiv_Ok by apply or_1_nonzero. reflexivity.
Qed.

Lemma by_target_desc_Ok (targets : dict) (others : list Z) :
  incl others (keys targets) ->
  by_target_desc targets others = Ok (order_at targets others).
Proof.
  intros H. unfold by_target_desc, order_at.
  rewrite (mapM_Ok _ (fun p => (value_at targets p, p))); [reflexivity |].
  intros p Hp. rewrite (getitem_value_at _ _ (H p Hp)). reflexivity.
Qed.

Lemma order_at_perm (targets : dict) (others : list Z) :
  Permutation others (order_at targets others).
Proof.
  unfold order_at.
  set (keyed := map (fun p => (value_at targets p, p)) others).
  replace others with (map snd keyed) at 1.
  - apply Permutation_map, sorted_desc_perm.
  - unfold keyed. rewrite map_map. simpl. apply map_id.
Qed.

Lemma redistribute_unfold (targets : dict) (pid shortfall : Z) :
  In pid (keys targets) ->
  let targets1 := after_take targets pid shortfall in
  let others := others_of targets1 pid in
  redistribute targets pid shortfall =
  (add_map <- foldM (fun m p => iadd m p 1)
                    (winners_at targets1 others shortfall)
                    (dict_of (floors_at targets1 others shortfall)) ;;
   foldM (fun tg kv => iadd tg (fst kv) (snd kv)) add_map targets1).
Proof.
  intros Hin targets1 others. unfold redistribute.
  rewrite take_shortfall_Ok by assumption. simpl bind.
  fold targets1. fold others.
  assert (Hincl : incl others (keys targets1)).
  { intros p Hp. apply others_of_In in Hp. tauto. }
  rewrite denom_of_Ok by assumption. simpl bind.
  rewrite floor_shares_Ok by assumption. simpl bind.
  rewrite by_target_desc_Ok by assumption. simpl bind.
  reflexivity.
Qed.

Lemma redistribute_Ok (targets : dict) (pid shortfall : Z) :
  In pid (keys targets) ->
  exists targets', redistribute targets pid shortfall = Ok targets' /\
                   keys targets' = keys targets.
Proof.
  intros Hin. rewrite redistribute_unfold by assumption.
  set (targets1 := after_take targets pid shortfall).
  set (others := others_of targets1 pid).
  set (floors := dict_of (floors_at targets1 others shortfall)).
  assert (Hfl : forall p, In p (keys floors) <-> In p others).
  { intros p. unfold floors. rewrite In_keys_dict_of.
    unfold floors_at. rewrite map_map. simpl. rewrite map_id. tauto. }
  destruct (foldM_iadd_Ok (fun p : Z => p) (fun _ => 1)
              (winners_at targets1 others shortfall) floors) as [am [E K]].
  - intros p Hp. apply Hfl. apply slice_to_incl in Hp.
    apply (Permutation_in _ (Permutation_sym (order_at_perm _ _)) Hp).
  - rewrite E. simpl bind.
    destruct (foldM_iadd_Ok (@fst Z Z) (@snd Z Z) am targets1) as [tg [E' K']].
    + intros kv Hkv. apply (in_map fst) in Hkv. fold (keys am) in Hkv.
      rewrite K in Hkv. apply Hfl, others_of_In in Hkv. tauto.
    + exists tg. split; [exact E' |]. rewrite K'.
      apply keys_after_take, Hin.
Qed.

(** ** The final correction *)



(** Whenever the final correction returns, the targets sum to the total. *)
Lemma final_correction_sum (total_cents : Z) (targets targets' : dict) :
  final_correction total_cents targets = Ok targets' ->
  Py.sum (values targets') = total_cents /\ keys targets' = keys targets.
Proof.
  unfold final_correction.
  destruct (Z.eqb_spec (total_cents - Py.sum (values targets)) 0) as [E | N];
    simpl; intros H.
  - injection H as <-. split; [lia | reflexivity].
  - bind_inv H. apply iadd_Ok_inv in H. destruct H as [v [_ [_ [K S]]]].
    split; [lia | exact K].
Qed.


(** ** The whole run *)

Lemma total_of_money (targets : dict) :
  total_of (map (fun kv => (fst kv, money (snd kv))) targets)
  = Py.sum (values targets).
Proof.
  unfold total_of, values. rewrite map_map. f_equal.
  apply map_ext. intros kv. simpl. apply money_hundredths.
Qed.

Section Run.

(** An event that exists and has participants. *)
Variables (db : Session) (event_id : Z) (ev : Event.t).
Hypothesis Hev : query_event db event_id = Some ev.
Hypothesis Hne : query_participants db event_id <> [].

Lemma compute_allocations_unfold :
  compute_allocations db event_id =
  (targets <- targets_at_bid db event_id
                (List.length (query_pledges db event_id "underpay_bid")) ;;
   targets <- final_correction (hundredths (Event.total_amount ev)) targets ;;
   Ok (map (fun kv => (fst kv, money (snd kv))) targets)).
Proof.
  unfold compute_allocations, targets_at_bid.
  destruct (query_participants db event_id) as [| p parts] eqn:E;
    [congruence |].
  rewrite Hev. cbn [total_amount_of bind]. rewrite cents_Some.
  cbn [bind]. rewrite firstn_all.
  destruct (equal_split _ _) as [t0 | e]; cbn [bind]; [| reflexivity].
  destruct (foldM volunteer_overpay _ t0) as [t1 | e]; cbn [bind];
    [| reflexivity].
  destruct (foldM underpay_bid _ t1) as [t2 | e]; cbn [bind]; reflexivity.
Qed.

(** Whenever [compute_allocations] returns, the amounts sum to the
    total. *)
Lemma compute_allocations_sum (m : list (Z * decimal)) :
  compute_allocations db event_id = Ok m ->
  total_of m = hundredths (Event.total_amount ev).
Proof.
  intros H. rewrite compute_allocations_unfold in H.
  bind_inv H. bind_inv H. injection H as <-.
  rewrite total_of_money. apply final_correction_sum in Ha0. tauto.
Qed.

End Run.

(** ** What the result depends on *)

Lemma foldM_map_ext {A B S : Type} (f : A -> B) (body : S -> A -> result S) :
  (forall s a b, f a = f b -> body s a = body s b) ->
  forall l1 l2 s, map f l1 = map f l2 -> foldM body l1 s = foldM body l2 s.
Proof.
  intros Hbody l1; induction l1 as [| a l1 IH]; intros [| b l2] s H;
    simpl in H; try discriminate; [reflexivity |].
  injection H as Hab Hl. simpl. rewrite (Hbody s a b Hab).
  destruct (body s b); simpl; [apply IH, Hl | reflexivity].
Qed.

Lemma filter_map_ext {A B : Type} (f : A -> B) (p : A -> bool) :
  (forall a b, f a = f b -> p a = p b) ->
  forall l1 l2, map f l1 = map f l2 ->
                map f (filter p l1) = map f (filter p l2).
Proof.
  intros Hp l1; induction l1 as [| a l1 IH]; intros [| b l2] H;
    simpl in H; try discriminate; [reflexivity |].
  injection H as Hab Hl. simpl. rewrite (Hp a b Hab).
  destruct (p b); simpl; [rewrite Hab; f_equal |]; apply IH, Hl.
Qed.

Lemma slice_to_map {A B : Type} (f : A -> B) (l : list A) (n : Z) :
  map f (Py.slice_to l n) = Py.slice_to (map f l) n.
Proof.
  unfold Py.slice_to. rewrite length_map.
  destruct (0 <=? n); symmetry; apply firstn_map.
Qed.

Lemma foldM_map {A B S : Type} (f : A -> B) (body : S -> B -> result S)
      (l : list A) (s : S) :
  foldM (fun s x => body s (f x)) l s = foldM body (map f l) s.
Proof.
  revert s; induction l as [| x l IH]; intros s; simpl; [reflexivity |].
  destruct (body s (f x)); simpl; [apply IH | reflexivity].
Qed.

(** The equal split reads the ids of the participants only. *)
Lemma equal_split_ids (total_cents : Z) (parts : list Participant.t) :
  equal_split total_cents parts =
  (let N := Z.of_nat (List.length (map Participant.id parts)) in
   base <- Py.floordiv total_cents N ;;
   foldM (fun tg pid => iadd tg pid 1)
         (Py.slice_to (map Participant.id parts) (total_cents - base * N))
         (dict_of (map (fun pid => (pid, base)) (map Participant.id parts)))).
Proof.
  unfold equal_split. rewrite length_map. cbv zeta.
  destruct (Py.floordiv _ _) as [base | e]; simpl; [| reflexivity].
  rewrite map_map, <- slice_to_map.
  apply (foldM_map Participant.id (fun tg pid => iadd tg pid 1)).
Qed.

Lemma volunteer_overpay_input (targets : dict) (a b : Pledge.t) :
  pledge_input a = pledge_input b ->
  volunteer_overpay targets a = volunteer_overpay targets b.
Proof.
  unfold pledge_input, volunteer_overpay. intros H.
  injection H as -> _ -> ->. reflexivity.
Qed.

Lemma underpay_bid_input (targets : dict) (a b : Pledge.t) :
  pledge_input a = pledge_input b ->
  underpay_bid targets a = underpay_bid targets b.
Proof.
  unfold pledge_input, underpay_bid, bid_shortfall. intros H.
  injection H as -> _ -> ->. reflexivity.
Qed.

(** The result is a function of the total of the event, of the ids of its
    participants in order, and of what the two queries on the pledges
    return, in order. *)
Lemma compute_allocations_ext (db1 db2 : Session) (e1 e2 : Z) :
  option_map Event.total_amount (query_event db1 e1)
  = option_map Event.total_amount (query_event db2 e2) ->
  map Participant.id (query_participants db1 e1)
  = map Participant.id (query_participants db2 e2) ->
  map pledge_input (query_pledges db1 e1 "volunteer_overpay")
  = map pledge_input (query_pledges db2 e2 "volunteer_overpay") ->
  map pledge_input (query_pledges db1 e1 "underpay_bid")
  = map pledge_input (query_pledges db2 e2 "underpay_bid") ->
  compute_allocations db1 e1 = compute_allocations db2 e2.
Proof.
  intros Hev Hparts Hvops Hbids. unfold compute_allocations.
  assert (Htotal : total_amount_of (query_event db1 e1)
                   = total_amount_of (query_event db2 e2)).
  { destruct (query_event db1 e1), (query_event db2 e2); simpl in *;
      congruence. }
  assert (Hsplit : forall c, equal_split c (query_participants db1 e1)
                             = equal_split c (query_participants db2 e2)).
  { intros c. rewrite !equal_split_ids, Hparts. reflexivity. }
  destruct (query_participants db1 e1) as [| p1 l1],
           (query_participants db2 e2) as [| p2 l2];
    try discriminate; [reflexivity |].
  rewrite Htotal.
  destruct (total_amount_of (query_event db2 e2)) as [total | e];
    cbn [bind]; [| reflexivity].
  destruct (cents (Some total)) as [c | e]; cbn [bind]; [| reflexivity].
  rewrite Hsplit.
  destruct (equal_split c (p2 :: l2)) as [t0 | e]; cbn [bind]; [| reflexivity].
  rewrite (foldM_map_ext pledge_input volunteer_overpay
             volunteer_overpay_input _ _ t0 Hvops).
  destruct (foldM volunteer_overpay _ t0) as [t1 | e]; cbn [bind];
    [| reflexivity].
  rewrite (foldM_map_ext pledge_input underpay_bid
             underpay_bid_input _ _ t1 Hbids).
  reflexivity.
Qed.

Lemma filter_filter_andb {A : Type} (f g : A -> bool) (l : list A) :
  filter f (filter g l) = filter (fun x => g x && f x) l.
Proof.
  induction l as [| x l IH]; simpl; [reflexivity |].
  destruct (g x); simpl; [destruct (f x) |]; rewrite IH; reflexivity.
Qed.

Lemma query_pledges_of_active (db : Session) (event_id : Z) (ty : string) :
  query_pledges db event_id ty
  = filter (fun p => String.eqb (Pledge.type p) ty)
           (active_pledges db event_id).
Proof.
  unfold query_pledges, active_pledges. rewrite filter_filter_andb.
  apply filter_ext. intros p.
  destruct (Pledge.event_id p =? event_id), (Pledge.active p),
           (String.eqb (Pledge.type p) ty); reflexivity.
Qed.

Lemma query_pledges_without_equal (db : Session) (ps : list Pledge.t)
      (event_id : Z) (ty : string) :
  ty <> "equal"%string ->
  query_pledges (with_pledges db (without_equal ps)) event_id ty
  = query_pledges (with_pledges db ps) event_id ty.
Proof.
  intros Hty. unfold query_pledges, with_pledges, without_equal; simpl.
  rewrite filter_filter_andb. apply filter_ext. intros p.
  destruct (String.eqb_spec (Pledge.type p) "equal") as [E | N]; simpl;
    [| reflexivity].
  destruct (String.eqb_spec (Pledge.type p) ty) as [E' | N'];
    [congruence |].
  rewrite andb_false_r. reflexivity.
Qed.

(** ** The shortfall of a bid *)

Lemma round_half_even_le (n d k : Z) :
  0 < d -> n <= k * d -> Py.round_half_even n d <= k.
Proof.
  intros Hd Hn. unfold Py.round_half_even.
  pose proof (Z.div_mod n d ltac:(lia)) as E.
  pose proof (Z.mod_pos_bound n d Hd) as Hr.
  set (q := n / d) in *. set (r := n mod d) in *.
  destruct (Z.ltb_spec (2 * r) d); [nia |].
  assert (q + 1 <= k) by nia.
  destruct (d <? 2 * r); [lia |]. destruct (Z.even q); lia.
Qed.

(** A percentage between 0 and 100 of [t], when positive, is at most [t]. *)
Lemma percent_at_most (t h : Z) :
  0 <= h <= 10000 ->
  0 < Py.round (inject_Z t * (h # 100) / 100) ->
  Py.round (inject_Z t * (h # 100) / 100) <= t.
Proof.
  intros Hh. unfold Py.round. simpl Qnum. simpl Qden.
  intros Hpos.
  assert (Ht : 0 < t).
  { destruct (Z.leb_spec t 0) as [Hle | Hgt]; [| exact Hgt].
    pose proof (round_half_even_le (t * h * 1) 10000 0 ltac:(lia)
                  ltac:(nia)). lia. }
  apply round_half_even_le; nia.
Qed.

(** ** The equal split, explicitly *)

Lemma money_Dec (c : Z) : money c = Dec c.
Proof.
  pose proof (money_hundredths c) as H.
  destruct (money c) as [h]. simpl in H. congruence.
Qed.

Lemma getitem_app_out (pre d : dict) (k : Z) :
  ~ In k (keys pre) -> getitem (pre ++ d) k = getitem d k.
Proof.
  induction pre as [| [k' v'] pre IH]; simpl; [reflexivity |].
  intros H. destruct (Z.eqb_spec k' k); [tauto | apply IH; tauto].
Qed.

Lemma setitem_app_out (pre d : dict) (k v : Z) :
  ~ In k (keys pre) -> setitem (pre ++ d) k v = pre ++ setitem d k v.
Proof.
  induction pre as [| [k' v'] pre IH]; simpl; [reflexivity |].
  intros H. destruct (Z.eqb_spec k' k); [tauto |].
  rewrite IH by tauto. reflexivity.
Qed.

Lemma sum_map_const {A : Type} (c : Z) (l : list A) :
  Py.sum (map (fun _ => c) l) = c * Z.of_nat (List.length l).
Proof.
  induction l as [| x l IH]; [cbn [map]; rewrite sum_nil; simpl; lia |].
  cbn [map List.length]. rewrite sum_cons, IH. lia.
Qed.

(** The loop of line 117 on participants whose ids are pairwise different:
    each of them gets its cent. *)
Lemma remainder_loop (base : Z) (l1 l2 : list Participant.t) (pre : dict) :
  NoDup (keys pre ++ map Participant.id (l1 ++ l2)) ->
  foldM (fun tg p => iadd tg (Participant.id p) 1) l1
        (pre ++ map (fun p => (Participant.id p, base)) (l1 ++ l2))
  = Ok (pre ++ map (fun p => (Participant.id p, base + 1)) l1
            ++ map (fun p => (Participant.id p, base)) l2).
Proof.
  revert pre; induction l1 as [| a l1 IH]; intros pre H; [reflexivity |].
  cbn [foldM app map].
  assert (Ha : ~ In (Participant.id a) (keys pre)).
  { intros Hin. cbn [app map] in H. apply NoDup_remove_2 in H.
    apply H, in_or_app; left; exact Hin. }
  unfold iadd at 1. rewrite getitem_app_out by assumption.
  cbn [getitem]. rewrite Z.eqb_refl. cbn [bind].
  rewrite setitem_app_out by assumption. cbn [setitem].
  rewrite Z.eqb_refl.
  specialize (IH (pre ++ [(Participant.id a, base + 1)])).
  rewrite <- !app_assoc in IH. cbn [app] in IH. apply IH.
  unfold keys. rewrite map_app. cbn [map fst].
  rewrite <- app_assoc. exact H.
Qed.

(** The targets after the equal split: [base + 1] for the first
    [remainder] participants, [base] for the others. *)
Lemma equal_split_explicit (total_cents : Z) (parts : list Participant.t) :
  parts <> [] ->
  NoDup (map Participant.id parts) ->
  let N := Z.of_nat (List.length parts) in
  let base := total_cents / N in
  let remainder := total_cents - base * N in
  0 <= remainder < N /\
  equal_split total_cents parts
  = Ok (map (fun p => (Participant.id p, base + 1))
            (firstn (Z.to_nat remainder) parts)
        ++ map (fun p => (Participant.id p, base))
               (skipn (Z.to_nat remainder) parts)).
Proof.
  intros Hne Hnd N base remainder.
  assert (HN : 0 < N) by (destruct parts; [congruence | unfold N; simpl; lia]).
  assert (Hr : 0 <= remainder < N).
  { unfold remainder, base.
    pose proof (Z.mod_pos_bound total_cents N HN) as Hm.
    rewrite Z.mod_eq in Hm by lia. lia. }
  split; [exact Hr |].
  unfold equal_split. fold N. rewrite floordiv_Ok by lia. cbn [bind].
  fold base. fold remainder.
  rewrite dict_of_NoDup by (rewrite map_map; exact Hnd).
  rewrite slice_to_nonneg by lia.
  rewrite <- (firstn_skipn (Z.to_nat remainder) parts) at 2.
  apply (remainder_loop base _ _ []).
  cbn [keys map app]. rewrite firstn_skipn. exact Hnd.
Qed.

(** ** The values after a loop of [+=] *)

Lemma value_at_iadd (d d' : dict) (k c x : Z) :
  iadd d k c = Ok d' ->
  value_at d' x = value_at d x + (if k =? x then c else 0).
Proof.
  intros H. apply iadd_Ok_inv in H. destruct H as [v [Hv [-> _]]].
  destruct (Z.eqb_spec k x) as [<- | Hne].
  - rewrite value_at_setitem_same, (value_at_Ok _ _ _ Hv). reflexivity.
  - rewrite value_at_setitem_other by assumption. lia.
Qed.

(** After [for x in l: d[key(x)] += amount(x)], the value under [k] has
    grown by the amounts of the elements of [l] whose key is [k]. *)
Lemma foldM_iadd_value {A : Type} (key amount : A -> Z) (l : list A)
      (d d' : dict) (k : Z) :
  foldM (fun m x => iadd m (key x) (amount x)) l d = Ok d' ->
  value_at d' k
  = value_at d k + Py.sum (map amount (filter (fun x => key x =? k) l)).
Proof.
  revert d; induction l as [| x l IH]; intros d H; cbn [foldM] in H.
  - injection H as <-. cbn [filter map]. rewrite sum_nil. lia.
  - bind_inv H. rewrite (IH _ H), (value_at_iadd _ _ _ _ k Ha).
    cbn [filter]. destruct (key x =? k); cbn [map];
      rewrite ?sum_cons; lia.
Qed.

Lemma foldM_iadd_keys {A : Type} (key amount : A -> Z) (l : list A)
      (d d' : dict) :
  foldM (fun m x => iadd m (key x) (amount x)) l d = Ok d' ->
  keys d' = keys d /\
  Py.sum (values d') = Py.sum (values d) + Py.sum (map amount l).
Proof.
  revert d; induction l as [| x l IH]; intros d H; cbn [foldM] in H.
  - injection H as <-. cbn [map]. rewrite sum_nil. split; [reflexivity | lia].
  - bind_inv H. destruct (IH _ H) as [K S].
    apply iadd_Ok_inv in Ha. destruct Ha as [v [_ [_ [K' S']]]].
    cbn [map]. rewrite sum_cons. split; [congruence | lia].
Qed.

Lemma filter_eqb_NoDup (l : list Z) (k : Z) :
  NoDup l ->
  filter (fun x => x =? k) l = if in_dec Z.eq_dec k l then [k] else [].
Proof.
  induction l as [| x l IH]; intros H; [reflexivity |].
  inversion H as [| ? ? Hx Hl]; subst. cbn [filter].
  rewrite IH by assumption.
  destruct (Z.eqb_spec x k) as [-> | Hne].
  - destruct (in_dec Z.eq_dec k l) as [Hin | _]; [contradiction |].
    destruct (in_dec Z.eq_dec k (k :: l)) as [_ | Hout]; [reflexivity |].
    exfalso; apply Hout; left; reflexivity.
  - destruct (in_dec Z.eq_dec k l) as [Hin | Hout];
      destruct (in_dec Z.eq_dec k (x :: l)) as [Hin' | Hout'];
      try reflexivity.
    + exfalso; apply Hout'; right; exact Hin.
    + destruct Hin' as [E | Hin']; [congruence | contradiction].
Qed.

(** The items of a dictionary under the key [k] sum to its value at [k]. *)
Lemma sum_items_at (d : dict) (k : Z) :
  NoDup (keys d) ->
  Py.sum (map snd (filter (fun kv => fst kv =? k) d)) = value_at d k.
Proof.
  induction d as [| [k' v'] d IH]; intros H; [reflexivity |].
  inversion H as [| ? ? Hk Hd]; subst. cbn [filter fst].
  unfold value_at; cbn [getitem].
  destruct (Z.eqb_spec k' k) as [-> | Hne].
  - cbn [map snd]. rewrite sum_cons.
    fold (value_at d k) in IH. rewrite (IH Hd).
    unfold value_at. rewrite getitem_not_In by assumption. lia.
  - apply IH, Hd.
Qed.

Lemma value_at_map (f : Z -> Z) (l : list Z) (p : Z) :
  In p l -> value_at (map (fun x => (x, f x)) l) p = f p.
Proof.
  induction l as [| x l IH]; intros H; [destruct H |].
  unfold value_at; cbn [map getitem].
  destruct (Z.eqb_spec x p) as [-> | Hne]; [reflexivity |].
  destruct H as [E | H]; [contradiction |]. apply IH, H.
Qed.

Lemma NoDup_firstn {A : Type} (n : nat) (l : list A) :
  NoDup l -> NoDup (firstn n l).
Proof.
  intros H. rewrite <- (firstn_skipn n l) in H.
  apply NoDup_app_remove_r in H. exact H.
Qed.

Lemma StronglySorted_app_inv {A : Type} (R : A -> A -> Prop) (l1 l2 : list A) :
  StronglySorted R (l1 ++ l2) ->
  forall x y, In x l1 -> In y l2 -> R x y.
Proof.
  induction l1 as [| a l1 IH]; intros H x y Hx Hy; [destruct Hx |].
  cbn [app] in H. inversion H as [| ? ? Hs Hall]; subst.
  destruct Hx as [<- | Hx].
  - rewrite Forall_forall in Hall. apply Hall, in_or_app; right; exact Hy.
  - apply IH; assumption.
Qed.

(** The order of line 145 is by descending target. *)
Lemma order_at_sorted (targets : dict) (others : list Z) :
  StronglySorted (fun p q => value_at targets q <= value_at targets p)
                 (order_at targets others).
Proof.
  unfold order_at.
  set (keyed := map (fun p => (value_at targets p, p)) others).
  assert (Hk : forall x, In x (Py.sorted_desc keyed) ->
                         fst x = value_at targets (snd x)).
  { intros x Hx.
    apply (Permutation_in _ (Permutation_sym (sorted_desc_perm keyed))) in Hx.
    unfold keyed in Hx. apply in_map_iff in Hx.
    destruct Hx as [p [<- _]]. reflexivity. }
  pose proof (sorted_desc_sorted keyed) as Hs.
  induction Hs as [| x l Hl IH Hx]; cbn [map]; constructor.
  - apply IH. intros y Hy. apply Hk; right; exact Hy.
  - apply Forall_forall. intros q Hq. apply in_map_iff in Hq.
    destruct Hq as [y [<- Hy]]. rewrite Forall_forall in Hx.
    specialize (Hx y Hy). unfold desc in Hx.
    rewrite <- (Hk x (or_introl eq_refl)), <- (Hk y (or_intror Hy)).
    exact Hx.
Qed.

(** ** What a bid does to the targets *)

Lemma winners_at_leftover (targets : dict) (others : list Z) (shortfall : Z) :
  NoDup others ->
  winners_at targets others shortfall
  = Py.slice_to (order_at targets others)
                (leftover_at targets others shortfall).
Proof.
  intros H. unfold winners_at, leftover_at.
  rewrite dict_of_NoDup.
  - unfold values, floors_at. rewrite map_map. reflexivity.
  - unfold floors_at. rewrite map_map. cbn [fst]. rewrite map_id. exact H.
Qed.

Lemma slice_to_NoDup {A : Type} (l : list A) (n : Z) :
  NoDup l -> NoDup (Py.slice_to l n).
Proof.
  unfold Py.slice_to. destruct (0 <=? n); apply NoDup_firstn.
Qed.

Lemma redistribute_values (targets targets' : dict) (pid shortfall : Z) :
  NoDup (keys targets) ->
  In pid (keys targets) ->
  let targets1 := after_take targets pid shortfall in
  let others := others_of targets1 pid in
  let winners := Py.slice_to (order_at targets1 others)
                             (leftover_at targets1 others shortfall) in
  redistribute targets pid shortfall = Ok targets' ->
  keys targets' = keys targets /\
  value_at targets' pid = value_at targets pid - shortfall /\
  forall p, In p others ->
            value_at targets' p
            = value_at targets1 p + floor_share targets1 others shortfall p
              + (if in_dec Z.eq_dec p winners then 1 else 0).
Proof.
  intros Hnd Hin targets1 others winners H.
  rewrite redistribute_unfold in H by assumption.
  fold targets1 others in H.
  assert (K1 : keys targets1 = keys targets) by (apply keys_after_take, Hin).
  assert (Hnd1 : NoDup others).
  { apply others_of_NoDup. rewrite K1. exact Hnd. }
  rewrite winners_at_leftover in H by assumption. fold winners in H.
  assert (Hfl : dict_of (floors_at targets1 others shortfall)
                = map (fun p => (p, floor_share targets1 others shortfall p))
                      others).
  { apply dict_of_NoDup. unfold floors_at. rewrite map_map. cbn [fst].
    rewrite map_id. exact Hnd1. }
  rewrite Hfl in H. bind_inv H. rename a into add_map.
  pose proof (foldM_iadd_keys (fun p : Z => p) (fun _ => 1) _ _ _ Ha)
    as [Kam _].
  assert (Kam' : keys add_map = others).
  { rewrite Kam. unfold keys. rewrite map_map. cbn [fst]. apply map_id. }
  pose proof (foldM_iadd_keys (@fst Z Z) (@snd Z Z) _ _ _ H) as [K' _].
  assert (Hval : forall k, value_at targets' k
                           = value_at targets1 k + value_at add_map k).
  { intros k. rewrite (foldM_iadd_value (@fst Z Z) (@snd Z Z) _ _ _ k H).
    rewrite sum_items_at; [reflexivity |]. rewrite Kam'. exact Hnd1. }
  split; [congruence |]. split.
  - rewrite Hval. unfold targets1 at 1, after_take.
    rewrite value_at_setitem_same.
    assert (Hout : ~ In pid (keys add_map)).
    { rewrite Kam'. intros Hp. apply others_of_In in Hp. tauto. }
    unfold value_at at 2. rewrite getitem_not_In by assumption. lia.
  - intros p Hp. rewrite Hval.
    rewrite (foldM_iadd_value (fun p : Z => p) (fun _ => 1) _ _ _ p Ha).
    rewrite value_at_map by assumption.
    rewrite filter_eqb_NoDup
      by (apply slice_to_NoDup;
          apply (Permutation_NoDup (order_at_perm targets1 others) Hnd1)).
    destruct (in_dec Z.eq_dec p winners); cbn [map];
      rewrite ?sum_cons, ?sum_nil; lia.
Qed.

Lemma firstn_S_nth_error {A : Type} (l : list A) (n : nat) (x : A) :
  nth_error l n = Some x -> firstn (S n) l = firstn n l ++ [x].
Proof.
  revert n; induction l as [| a l IH]; intros [| n] H; simpl in H;
    try discriminate.
  - injection H as ->. reflexivity.
  - cbn [firstn app]. rewrite <- (IH n H). reflexivity.
Qed.

(** The loop over the bids, one bid further. *)
Lemma targets_at_bid_S (db : Session) (event_id : Z) (n : nat) (b : Pledge.t)
      (targets : dict) :
  nth_error (query_pledges db event_id "underpay_bid") n = Some b ->
  targets_at_bid db event_id n = Ok targets ->
  targets_at_bid db event_id (S n) = underpay_bid targets b.
Proof.
  intros Hb H. unfold targets_at_bid in *.
  destruct (total_amount_of _) as [total | e]; cbn [bind] in *;
    [| discriminate].
  destruct (cents _) as [c | e]; cbn [bind] in *; [| discriminate].
  destruct (equal_split _ _) as [t0 | e]; cbn [bind] in *; [| discriminate].
  destruct (foldM volunteer_overpay _ _) as [t1 | e]; cbn [bind] in *;
    [| discriminate].
  rewrite (firstn_S_nth_error _ _ _ Hb), foldM_app, H. cbn [bind foldM].
  destruct (underpay_bid targets b); reflexivity.
Qed.

(** ** When the leftover cents are all handed out *)

(** The floor shares of non-negative targets miss less than one cent each. *)
Lemma floors_bound (s D : Z) (ts : list Z) :
  0 < D -> 0 <= s -> Forall (fun t => 0 <= t) ts ->
  D * Py.sum (map (fun t => s * t / D) ts) <= s * Py.sum ts /\
  s * Py.sum ts
  <= D * Py.sum (map (fun t => s * t / D) ts)
     + (D - 1) * Z.of_nat (List.length ts).
Proof.
  intros HD Hs Hts. induction Hts as [| t ts Ht Hts IH].
  - cbn [map List.length]. rewrite sum_nil. lia.
  - cbn [map List.length]. rewrite !sum_cons.
    pose proof (Z.div_mod (s * t) D ltac:(lia)) as E.
    pose proof (Z.mod_pos_bound (s * t) D HD) as Hr.
    set (q := s * t / D) in *. set (r := (s * t) mod D) in *.
    rewrite Nat2Z.inj_succ. nia.
Qed.

Lemma leftover_below_others (targets : dict) (others : list Z) (shortfall : Z) :
  0 <= shortfall ->
  (forall p, In p others -> 0 <= value_at targets p) ->
  0 < Py.sum (map (value_at targets) others) ->
  0 <= leftover_at targets others shortfall < Z.of_nat (List.length others).
Proof.
  intros Hs Hpos Hsum. unfold leftover_at.
  set (D := Py.sum (map (value_at targets) others)) in *.
  assert (HD : denom_at targets others = D).
  { unfold denom_at, Py.or_. fold D. destruct (Z.eqb_spec D 0); [lia |].
    reflexivity. }
  assert (Hfl : map (floor_share targets others shortfall) others
                = map (fun t => shortfall * t / D)
                      (map (value_at targets) others)).
  { rewrite map_map. apply map_ext. intros p. unfold floor_share.
    rewrite HD. reflexivity. }
  rewrite Hfl.
  destruct (floors_bound shortfall D (map (value_at targets) others) Hsum Hs)
    as [Hlo Hhi].
  { apply Forall_forall. intros t Ht. apply in_map_iff in Ht.
    destruct Ht as [p [<- Hp]]. apply Hpos, Hp. }
  fold D in Hlo, Hhi. rewrite length_map in Hhi.
  set (F := Py.sum (map (fun t => shortfall * t / D)
                        (map (value_at targets) others))) in *.
  set (n := Z.of_nat (List.length others)) in *.
  assert (Hn : 0 < n).
  { unfold n. destruct others; [| simpl; lia].
    unfold D in Hsum. cbn [map] in Hsum. rewrite sum_nil in Hsum. lia. }
  nia.
Qed.

(** The sum of the targets after a bid. *)
Lemma redistribute_sum (targets targets' : dict) (pid shortfall : Z) :
  NoDup (keys targets) ->
  In pid (keys targets) ->
  let targets1 := after_take targets pid shortfall in
  let others := others_of targets1 pid in
  let winners := Py.slice_to (order_at targets1 others)
                             (leftover_at targets1 others shortfall) in
  redistribute targets pid shortfall = Ok targets' ->
  Py.sum (values targets')
  = Py.sum (values targets) - leftover_at targets1 others shortfall
    + Z.of_nat (List.length winners).
Proof.
  intros Hnd Hin targets1 others winners H.
  rewrite redistribute_unfold in H by assumption.
  fold targets1 others in H.
  assert (K1 : keys targets1 = keys targets) by (apply keys_after_take, Hin).
  assert (Hnd1 : NoDup others).
  { apply others_of_NoDup. rewrite K1. exact Hnd. }
  rewrite winners_at_leftover in H by assumption. fold winners in H.
  assert (Hfl : dict_of (floors_at targets1 others shortfall)
                = floors_at targets1 others shortfall).
  { apply dict_of_NoDup. unfold floors_at. rewrite map_map. cbn [fst].
    rewrite map_id. exact Hnd1. }
  rewrite Hfl in H. bind_inv H. rename a into add_map.
  pose proof (foldM_iadd_keys (fun p : Z => p) (fun _ => 1) _ _ _ Ha)
    as [_ Sam].
  pose proof (foldM_iadd_keys (@fst Z Z) (@snd Z Z) _ _ _ H) as [_ S'].
  fold (values add_map) in S'. rewrite S', Sam.
  rewrite sum_map_const.
  assert (S1 : Py.sum (values targets1) = Py.sum (values targets) - shortfall).
  { unfold targets1, after_take.
    rewrite (sum_setitem _ _ (value_at targets pid))
      by (apply getitem_value_at, Hin). lia. }
  rewrite S1. unfold leftover_at, values, floors_at. rewrite map_map.
  cbn [snd].
  change (fun x : Z => floor_share targets1 others shortfall x)
    with (floor_share targets1 others shortfall).
  lia.
Qed.

(** ** The keys of [targets] along the loops *)

(** A bid with a positive shortfall is the bid of a key of [targets]. *)
Lemma bid_shortfall_positive (targets : dict) (b : Pledge.t) (shortfall : Z) :
  bid_shortfall targets b = Ok shortfall -> 0 < shortfall ->
  In (Pledge.participant_id b) (keys targets).
Proof.
  unfold bid_shortfall, percent_of. intros H Hpos.
  destruct (is_value_type (Pledge.value_type b) "percent").
  - bind_inv H. eapply getitem_In_keys; eassumption.
  - destruct (is_value_type (Pledge.value_type b) "fixed").
    + bind_inv H. bind_inv H. eapply getitem_In_keys; eassumption.
    + injection H as <-. lia.
Qed.

Lemma volunteer_overpay_keys (targets targets' : dict) (v : Pledge.t) :
  volunteer_overpay targets v = Ok targets' -> keys targets' = keys targets.
Proof.
  unfold volunteer_overpay. intros H. bind_inv H.
  apply iadd_Ok_inv in H. destruct H as [_ [_ [_ [K _]]]]. exact K.
Qed.

Lemma underpay_bid_keys (targets targets' : dict) (b : Pledge.t) :
  underpay_bid targets b = Ok targets' -> keys targets' = keys targets.
Proof.
  unfold underpay_bid. intros H. bind_inv H. rename a into s.
  destruct (Z.leb_spec s 0) as [Hle | Hgt].
  - injection H as <-. reflexivity.
  - destruct (redistribute_Ok targets (Pledge.participant_id b) s
                (bid_shortfall_positive _ _ _ Ha Hgt)) as [tg [E K]].
    congruence.
Qed.

(** Whenever the loops reach a bid, the keys of [targets] are the
    participant ids. *)
Lemma targets_at_bid_keys (db : Session) (event_id : Z) (n : nat)
      (targets : dict) :
  query_participants db event_id <> [] ->
  targets_at_bid db event_id n = Ok targets ->
  good_keys (query_participants db event_id) targets.
Proof.
  intros Hne H. unfold targets_at_bid in H.
  bind_inv H. rename a into total. bind_inv H. rename a into c.
  bind_inv H. rename a into t0. bind_inv H. rename a into t1.
  destruct (equal_split_Ok c _ Hne) as [t0' [E G0]].
  rewrite Ha1 in E. injection E as <-.
  apply (foldM_preserves volunteer_overpay (fun tg => keys tg = keys t0))
    in Ha2; [| intros s x s' Hs Hx; rewrite <- Hs;
               eapply volunteer_overpay_keys, Hx | reflexivity].
  apply (foldM_preserves underpay_bid (fun tg => keys tg = keys t0))
    in H; [| intros s x s' Hs Hx; rewrite <- Hs;
             eapply underpay_bid_keys, Hx | exact Ha2].
  unfold good_keys in *. rewrite H. exact G0.
Qed.

(** * Properties of the routes and further lemmas *)

(** ** When [compute_allocations] returns *)

Lemma decimal_eta (d : decimal) : Dec (hundredths d) = d.
Proof. destruct d; reflexivity. Qed.

Lemma is_participant_In (ids : list Z) (pid : Z) :
  is_participant ids pid = true <-> In pid ids.
Proof.
  unfold is_participant. rewrite existsb_exists. split.
  - intros [x [Hx E]]. apply Z.eqb_eq in E. subst; exact Hx.
  - intros H. exists pid. split; [exact H | apply Z.eqb_refl].
Qed.

(** A loop that returned ran its body on every element. *)
Lemma foldM_Ok_Forall {A S : Type} (body : S -> A -> result S)
      (P : S -> Prop) (Q : A -> Prop) :
  (forall s x s', P s -> body s x = Ok s' -> P s' /\ Q x) ->
  forall l s s', P s -> foldM body l s = Ok s' -> Forall Q l /\ P s'.
Proof.
  intros Hbody l; induction l as [| x l IH]; intros s s' Hs H;
    cbn [foldM] in H.
  - injection H as <-. split; [constructor | exact Hs].
  - bind_inv H. destruct (Hbody _ _ _ Hs Ha) as [Ha' Hx].
    destruct (IH _ _ Ha' H) as [Hl Hs']. split; [constructor |]; assumption.
Qed.

Lemma float_Ok_inv (d : option decimal) (x : Q) :
  float d = Ok x -> exists d', d = Some d'.
Proof. destruct d as [d' |]; [eauto | discriminate]. Qed.

Lemma cents_Ok_inv (d : option decimal) (c : Z) :
  cents d = Ok c -> exists d', d = Some d'.
Proof. unfold cents. intros H. bind_inv H. eapply float_Ok_inv, Ha. Qed.

Lemma percent_of_Ok_inv (targets : dict) (pid : Z) (value : option decimal)
      (x : Z) :
  percent_of targets pid value = Ok x ->
  In pid (keys targets) /\ exists d, value = Some d.
Proof.
  unfold percent_of. intros H. bind_inv H. bind_inv H. split.
  - eapply getitem_In_keys, Ha.
  - eapply float_Ok_inv, Ha0.
Qed.

Lemma volunteer_overpay_Ok_inv (targets targets' : dict) (v : Pledge.t) :
  volunteer_overpay targets v = Ok targets' ->
  In (Pledge.participant_id v) (keys targets) /\ carries_value v = true.
Proof.
  unfold volunteer_overpay, carries_value. intros H. bind_inv H.
  apply iadd_Ok_inv in H. destruct H as [t [Ht _]].
  split; [eapply getitem_In_keys, Ht |].
  destruct (is_value_type (Pledge.value_type v) "percent"); cbn [orb].
  - apply percent_of_Ok_inv in Ha. destruct Ha as [_ [d ->]]. reflexivity.
  - destruct (is_value_type (Pledge.value_type v) "fixed"); [| reflexivity].
    apply cents_Ok_inv in Ha. destruct Ha as [d ->]. reflexivity.
Qed.

Lemma bid_shortfall_Ok_inv (targets : dict) (b : Pledge.t) (s : Z) :
  bid_shortfall targets b = Ok s ->
  is_value_type (Pledge.value_type b) "percent"
  || is_value_type (Pledge.value_type b) "fixed" = true ->
  In (Pledge.participant_id b) (keys targets) /\ carries_value b = true.
Proof.
  unfold bid_shortfall, carries_value. intros H Hvt. rewrite Hvt.
  destruct (is_value_type (Pledge.value_type b) "percent").
  - apply percent_of_Ok_inv in H. destruct H as [Hin [d ->]]. auto.
  - cbn [orb] in Hvt. rewrite Hvt in H. bind_inv H. bind_inv H.
    apply cents_Ok_inv in Ha. destruct Ha as [d ->].
    split; [eapply getitem_In_keys, Ha0 | reflexivity].
Qed.

Lemma overpay_Ok_readable (ids : list Z) (targets targets' : dict)
      (v : Pledge.t) :
  (forall x, In x (keys targets) <-> In x ids) ->
  volunteer_overpay targets v = Ok targets' ->
  (forall x, In x (keys targets') <-> In x ids) /\
  overpay_readable ids v = true.
Proof.
  intros Hk H. rewrite (volunteer_overpay_keys _ _ _ H).
  split; [exact Hk |]. apply volunteer_overpay_Ok_inv in H.
  destruct H as [Hin Hv]. unfold overpay_readable. rewrite Hv, andb_true_r.
  apply is_participant_In, Hk, Hin.
Qed.

Lemma bid_Ok_readable (ids : list Z) (targets targets' : dict)
      (b : Pledge.t) :
  (forall x, In x (keys targets) <-> In x ids) ->
  underpay_bid targets b = Ok targets' ->
  (forall x, In x (keys targets') <-> In x ids) /\
  bid_readable ids b = true.
Proof.
  intros Hk H. rewrite (underpay_bid_keys _ _ _ H).
  split; [exact Hk |]. unfold bid_readable.
  destruct (is_value_type (Pledge.value_type b) "percent"
            || is_value_type (Pledge.value_type b) "fixed") eqn:Hvt;
    [| reflexivity].
  unfold underpay_bid in H. bind_inv H.
  destruct (bid_shortfall_Ok_inv _ _ _ Ha Hvt) as [Hin Hv].
  rewrite Hv, andb_true_r. apply is_participant_In, Hk, Hin.
Qed.

(** The keys of a mapping that was returned are the participant ids, each
    once. *)
Lemma compute_allocations_keys (db : Session) (event_id : Z)
      (m : list (Z * decimal)) :
  query_participants db event_id <> [] ->
  compute_allocations db event_id = Ok m ->
  NoDup (map fst m) /\
  (forall x, In x (map fst m) <->
             In x (map Participant.id (query_participants db event_id))) /\
  (NoDup (map Participant.id (query_participants db event_id)) ->
   map fst m = map Participant.id (query_participants db event_id)).
Proof.
  intros Hne H. unfold compute_allocations in H.
  destruct (query_participants db event_id) as [| p parts] eqn:Hparts;
    [congruence |].
  bind_inv H. rename a into total. rewrite cents_Some in H. cbn [bind] in H.
  bind_inv H. rename a into t0. bind_inv H. rename a into t1.
  bind_inv H. rename a into t2. bind_inv H. rename a into t3.
  injection H as <-.
  assert (Hk : map fst (map (fun kv => (fst kv, money (snd kv))) t3)
               = keys t3) by (rewrite map_map; reflexivity).
  rewrite Hk.
  assert (K3 : keys t3 = keys t0).
  { apply final_correction_sum in Ha3. destruct Ha3 as [_ ->].
    apply (foldM_preserves underpay_bid (fun tg => keys tg = keys t0))
      in Ha2; [exact Ha2 | |].
    - intros s x s' Hs Hx. rewrite <- Hs. eapply underpay_bid_keys, Hx.
    - apply (foldM_preserves volunteer_overpay (fun tg => keys tg = keys t0))
        in Ha1; [exact Ha1 | | reflexivity].
      intros s x s' Hs Hx. rewrite <- Hs. eapply volunteer_overpay_keys, Hx. }
  rewrite K3.
  destruct (equal_split_Ok (hundredths total) (p :: parts)) as [t0' [E [Hnd Hin]]];
    [discriminate |].
  rewrite Ha0 in E. injection E as <-.
  split; [exact Hnd |]. split; [exact Hin |].
  intros Hids.
  destruct (equal_split_explicit (hundredths total) (p :: parts))
    as [_ E]; [discriminate | exact Hids |].
  rewrite Ha0 in E. injection E as ->.
  unfold keys. rewrite map_app, !map_map. cbn [fst].
  rewrite <- map_app, firstn_skipn. reflexivity.
Qed.

(** ** The targets of amounts in range are not negative *)

Lemma getitem_In (d : dict) (k v : Z) : getitem d k = Ok v -> In (k, v) d.
Proof.
  induction d as [| [k' v'] d IH]; simpl; [discriminate |].
  destruct (Z.eqb_spec k' k) as [-> | _]; intros H.
  - injection H as ->. left; reflexivity.
  - right; auto.
Qed.

Lemma nonneg_getitem (d : dict) (k v : Z) :
  nonneg d -> getitem d k = Ok v -> 0 <= v.
Proof.
  unfold nonneg. rewrite Forall_forall. intros Hd H.
  apply (Hd (k, v)), getitem_In, H.
Qed.

Lemma nonneg_setitem (d : dict) (k v : Z) :
  nonneg d -> 0 <= v -> nonneg (setitem d k v).
Proof.
  unfold nonneg. intros Hd Hv.
  induction d as [| [k' v'] d IH]; simpl.
  - constructor; [exact Hv | constructor].
  - inversion Hd as [| ? ? H1 H2]; subst.
    destruct (k' =? k); constructor; auto.
Qed.

Lemma nonneg_iadd (d d' : dict) (k c : Z) :
  nonneg d -> 0 <= c -> iadd d k c = Ok d' -> nonneg d'.
Proof.
  intros Hd Hc H. unfold iadd in H. bind_inv H. injection H as <-.
  apply nonneg_setitem; [exact Hd |].
  pose proof (nonneg_getitem _ _ _ Hd Ha). lia.
Qed.

Lemma nonneg_foldM_iadd {A : Type} (key amount : A -> Z) (l : list A)
      (d d' : dict) :
  nonneg d -> (forall x, In x l -> 0 <= amount x) ->
  foldM (fun m x => iadd m (key x) (amount x)) l d = Ok d' -> nonneg d'.
Proof.
  revert d; induction l as [| x l IH]; intros d Hd Hl H; cbn [foldM] in H.
  - injection H as <-; exact Hd.
  - bind_inv H. eapply IH; [| | exact H].
    + eapply nonneg_iadd; [exact Hd | | exact Ha]. apply Hl; left; reflexivity.
    + intros y Hy. apply Hl; right; exact Hy.
Qed.

Lemma nonneg_dict_of (l : list (Z * Z)) :
  Forall (fun kv => 0 <= snd kv) l -> nonneg (dict_of l).
Proof.
  rewrite dict_of_fold. intros H.
  assert (G : forall d, nonneg d -> nonneg (fold_left step_setitem l d)).
  { induction H as [| kv l Hkv Hl IH]; intros d Hd; cbn [fold_left];
      [exact Hd |].
    apply IH. apply nonneg_setitem; assumption. }
  apply G. constructor.
Qed.

Lemma round_half_even_nonneg (n d : Z) :
  0 < d -> 0 <= n -> 0 <= Py.round_half_even n d.
Proof.
  intros Hd Hn. unfold Py.round_half_even.
  pose proof (Z.div_pos n d Hn Hd) as Hq.
  destruct (2 * (n mod d) <? d); [exact Hq |].
  destruct (d <? 2 * (n mod d)); [lia |].
  destruct (Z.even (n / d)); lia.
Qed.

Lemma percent_nonneg (t h : Z) :
  0 <= t -> 0 <= h -> 0 <= Py.round (inject_Z t * (h # 100) / 100).
Proof.
  intros Ht Hh. unfold Py.round. simpl Qnum. simpl Qden.
  apply round_half_even_nonneg; nia.
Qed.

Lemma mapM_Ok_inv {A B : Type} (f : A -> result B) (l : list A)
      (ys : list B) :
  mapM f l = Ok ys -> Forall2 (fun x y => f x = Ok y) l ys.
Proof.
  revert ys; induction l as [| x l IH]; intros ys H; cbn [mapM] in H.
  - injection H as <-. constructor.
  - bind_inv H. bind_inv H. injection H as <-. constructor; auto.
Qed.

Lemma sum_nonneg (l : list Z) : Forall (fun t => 0 <= t) l -> 0 <= Py.sum l.
Proof.
  induction 1 as [| t l Ht Hl IH]; [rewrite sum_nil; lia |].
  rewrite sum_cons. lia.
Qed.

Lemma nonneg_volunteer_overpay (targets targets' : dict) (v : Pledge.t) :
  nonneg targets -> overpay_in_range v = true ->
  volunteer_overpay targets v = Ok targets' -> nonneg targets'.
Proof.
  unfold volunteer_overpay, overpay_in_range. intros Hd Hv H. bind_inv H.
  eapply nonneg_iadd; [exact Hd | | exact H].
  destruct (is_value_type (Pledge.value_type v) "percent"); cbn [orb] in Hv.
  - unfold percent_of in Ha. bind_inv Ha. bind_inv Ha. injection Ha as <-.
    destruct (Pledge.value v) as [d |]; [| discriminate].
    injection Ha1 as <-. apply percent_nonneg; [| lia].
    eapply nonneg_getitem; eassumption.
  - destruct (is_value_type (Pledge.value_type v) "fixed").
    + destruct (Pledge.value v) as [d |]; [| discriminate].
      rewrite cents_Some in Ha. injection Ha as <-. lia.
    + injection Ha as <-. lia.
Qed.

(** The shortfall of a bid in range is at most the target of the bidder. *)
Lemma shortfall_at_most (targets : dict) (b : Pledge.t) (t s : Z) :
  bid_in_range b = true ->
  getitem targets (Pledge.participant_id b) = Ok t ->
  bid_shortfall targets b = Ok s -> 0 < s -> s <= t.
Proof.
  unfold bid_in_range, bid_shortfall. intros Hr Ht Hs Hpos.
  destruct (is_value_type (Pledge.value_type b) "percent").
  - unfold percent_of in Hs. rewrite Ht in Hs. cbn [bind] in Hs.
    destruct (Pledge.value b) as [d |]; [| discriminate].
    cbn [float bind] in Hs. injection Hs as <-.
    apply percent_at_most; [lia | exact Hpos].
  - destruct (is_value_type (Pledge.value_type b) "fixed").
    + bind_inv Hs. rewrite Ht in Hs. cbn [bind] in Hs. injection Hs as <-. lia.
    + injection Hs as <-. lia.
Qed.

Lemma nonneg_redistribute (targets targets' : dict) (pid t shortfall : Z) :
  nonneg targets -> getitem targets pid = Ok t ->
  0 < shortfall <= t ->
  redistribute targets pid shortfall = Ok targets' -> nonneg targets'.
Proof.
  intros Hd Ht Hs H. unfold redistribute in H.
  bind_inv H. rename a into t1.
  assert (H1 : nonneg t1).
  { unfold take_shortfall in Ha. rewrite Ht in Ha. injection Ha as <-.
    apply nonneg_setitem; [exact Hd | lia]. }
  bind_inv H. rename a into denom. bind_inv H. rename a into add_map.
  bind_inv H. rename a into order. bind_inv H. rename a into add_map'.
  assert (Hden : 0 < denom).
  { unfold denom_of in Ha0. bind_inv Ha0. injection Ha0 as <-.
    apply mapM_Ok_inv in Ha4.
    assert (Hts : Forall (fun t => 0 <= t) a).
    { clear - Ha4 H1. induction Ha4 as [| x y l l' Hxy _ IH]; constructor.
      - eapply nonneg_getitem; eassumption.
      - exact IH. }
    pose proof (sum_nonneg _ Hts). unfold Py.or_.
    destruct (Z.eqb_spec (Py.sum a) 0); lia. }
  assert (Ham : nonneg add_map).
  { unfold floor_shares in Ha1. bind_inv Ha1. injection Ha1 as <-.
    apply nonneg_dict_of. apply mapM_Ok_inv in Ha4.
    clear - Ha4 H1 Hs Hden.
    induction Ha4 as [| x y l l' Hxy _ IH]; constructor; [| exact IH].
    bind_inv Hxy. unfold Py.floordiv in Hxy.
    destruct (denom =? 0); [discriminate |]. injection Hxy as <-. simpl.
    pose proof (nonneg_getitem _ _ _ H1 Ha). apply Z.div_pos; nia. }
  assert (Ham' : nonneg add_map').
  { apply (nonneg_foldM_iadd (fun p : Z => p) (fun _ => 1) _ _ _ Ham)
      in Ha3; [exact Ha3 | intros; lia]. }
  apply (nonneg_foldM_iadd (@fst Z Z) (@snd Z Z) _ _ _ H1) in H; [exact H |].
  intros kv Hkv. unfold nonneg in Ham'. rewrite Forall_forall in Ham'.
  apply Ham', Hkv.
Qed.

Lemma nonneg_underpay_bid (targets targets' : dict) (b : Pledge.t) :
  nonneg targets -> bid_in_range b = true ->
  underpay_bid targets b = Ok targets' -> nonneg targets'.
Proof.
  intros Hd Hr H. unfold underpay_bid in H. bind_inv H. rename a into s.
  destruct (Z.leb_spec s 0) as [Hle | Hgt].
  - injection H as <-; exact Hd.
  - pose proof (bid_shortfall_positive _ _ _ Ha Hgt) as Hin.
    destruct (In_keys_getitem _ _ Hin) as [t Ht].
    pose proof (shortfall_at_most _ _ _ _ Hr Ht Ha Hgt).
    apply (nonneg_redistribute targets targets' (Pledge.participant_id b) t s
             Hd Ht); [lia | exact H].
Qed.

Lemma nonneg_equal_split (total_cents : Z) (parts : list Participant.t)
      (targets : dict) :
  0 <= total_cents ->
  equal_split total_cents parts = Ok targets -> nonneg targets.
Proof.
  intros HT H. unfold equal_split in H. bind_inv H. rename a into base.
  assert (Hb : 0 <= base).
  { unfold Py.floordiv in Ha.
    destruct (Z.eqb_spec (Z.of_nat (List.length parts)) 0); [discriminate |].
    injection Ha as <-. apply Z.div_pos; lia. }
  apply (nonneg_foldM_iadd Participant.id (fun _ => 1)) in H;
    [exact H | | intros; lia].
  apply nonneg_dict_of. apply Forall_forall. intros kv Hkv.
  apply in_map_iff in Hkv. destruct Hkv as [p [<- _]]. exact Hb.
Qed.

(** ** The participant that the final correction picks *)

Lemma fold_best_split (l pre mid : list (Z * Z)) (best : Z * Z) :
  Forall (fun x => snd x < snd best) pre ->
  Forall (fun x => snd x <= snd best) mid ->
  exists pre' post',
    let best' := fold_left
                   (fun best cur => if snd best <? snd cur then cur else best)
                   l best in
    pre ++ best :: mid ++ l = pre' ++ best' :: post' /\
    Forall (fun x => snd x < snd best') pre' /\
    Forall (fun x => snd x <= snd best') post'.
Proof.
  revert pre mid best; induction l as [| cur l IH]; intros pre mid best Hp Hm.
  - exists pre, mid. cbn [fold_left]. rewrite app_nil_r. auto.
  - cbn [fold_left]. destruct (Z.ltb_spec (snd best) (snd cur)) as [Hlt | Hge].
    + destruct (IH (pre ++ best :: mid) [] cur) as [pre' [post' [E H]]].
      * apply Forall_app. split.
        -- eapply Forall_impl; [| exact Hp]. cbn. intros; lia.
        -- constructor; [exact Hlt |].
           eapply Forall_impl; [| exact Hm]. cbn. intros; lia.
      * constructor.
      * exists pre', post'. cbv zeta in *. split; [| exact H].
        rewrite <- E, <- !app_assoc. reflexivity.
    + destruct (IH pre (mid ++ [cur]) best Hp) as [pre' [post' [E H]]].
      * apply Forall_app. split; [exact Hm | constructor; [exact Hge |
                                                           constructor]].
      * exists pre', post'. cbv zeta in *. split; [| exact H].
        rewrite <- E, <- !app_assoc. reflexivity.
Qed.

(** [max(d, key=d.get)] is the first key whose value is the largest. *)
Lemma max_key_first_largest (d : dict) (k : Z) :
  max_key d = Ok k ->
  exists pre v post,
    d = pre ++ (k, v) :: post /\
    Forall (fun x => snd x < v) pre /\
    Forall (fun x => snd x <= v) post.
Proof.
  destruct d as [| kv d]; [discriminate |]. unfold max_key.
  intros H. injection H as <-.
  destruct (fold_best_split d [] [] kv) as [pre [post [E [Hp Hq]]]];
    try constructor.
  cbv zeta in *. cbn [app] in E.
  set (best := fold_left _ d kv) in *.
  exists pre, (snd best), post. rewrite E. destruct best; auto.
Qed.

(** ** The tokens *)

Lemma tokens_get_set_same (d : tokens) (k : string) (v : string * datetime) :
  tokens_get (tokens_set d k v) k = Some v.
Proof.
  induction d as [| [k' v'] d IH]; simpl.
  - rewrite String.eqb_refl; reflexivity.
  - destruct (String.eqb_spec k' k) as [-> | Hne]; simpl.
    + rewrite String.eqb_refl; reflexivity.
    + destruct (String.eqb_spec k' k); [contradiction | exact IH].
Qed.

Lemma tokens_get_set_other (d : tokens) (k k' : string)
      (v : string * datetime) :
  k <> k' -> tokens_get (tokens_set d k v) k' = tokens_get d k'.
Proof.
  intros Hne. induction d as [| [k0 v0] d IH]; simpl.
  - destruct (String.eqb_spec k k'); [contradiction | reflexivity].
  - destruct (String.eqb_spec k0 k) as [-> | Hk]; simpl.
    + destruct (String.eqb_spec k k'); [contradiction | reflexivity].
    + rewrite IH; reflexivity.
Qed.

(** ** New rows and the constraints of the tables *)

Lemma fold_max_ge (x : Z) (l : list Z) :
  x <= fold_right Z.max x l /\ forall y, In y l -> y <= fold_right Z.max x l.
Proof.
  induction l as [| a l [IH1 IH2]]; simpl.
  - split; [lia | intros y []].
  - split; [lia |]. intros y [<- | Hy]; [lia |].
    specialize (IH2 y Hy). lia.
Qed.

(** The id of a new row is the id of no row of the table. *)
Lemma next_id_fresh (ids : list Z) : ~ In (next_id ids) ids.
Proof.
  destruct ids as [| x l]; [intros [] |]. unfold next_id.
  destruct (fold_max_ge x l) as [H1 H2].
  intros [E | Hin]; [lia |]. specialize (H2 _ Hin). lia.
Qed.

Lemma NoDup_snoc {A : Type} (l : list A) (x : A) :
  NoDup l -> ~ In x l -> NoDup (l ++ [x]).
Proof.
  intros Hl Hx. apply NoDup_app; [exact Hl | repeat constructor; intros [] |].
  intros y Hy [<- | []]. contradiction.
Qed.

Lemma NoDup_snoc_next_id {A : Type} (id : A -> Z) (l : list A) (x : A) :
  NoDup (map id l) -> id x = next_id (map id l) -> NoDup (map id (l ++ [x])).
Proof.
  intros Hl E. rewrite map_app. cbn [map]. apply NoDup_snoc; [exact Hl |].
  rewrite E. apply next_id_fresh.
Qed.

Lemma find_snoc {A : Type} (f : A -> bool) (l : list A) (x : A) :
  find f (l ++ [x])
  = match find f l with
    | Some y => Some y
    | None => if f x then Some x else None
    end.
Proof.
  induction l as [| a l IH]; simpl; [reflexivity |].
  destruct (f a); [reflexivity | exact IH].
Qed.

Lemma find_email_none (l : list User.t) (email : string) :
  find (fun u => String.eqb (User.email u) email) l = None ->
  ~ In email (map User.email l).
Proof.
  intros H Hin. apply in_map_iff in Hin. destruct Hin as [u [E Hu]].
  apply (find_none _ _ H) in Hu. rewrite E, String.eqb_refl in Hu.
  discriminate.
Qed.

(** ** [get_or_create_user] *)

Lemma get_or_create_user_spec (db db' : Store) (email : string) (u : User.t) :
  get_or_create_user db email = (db', u) ->
  find (fun u => String.eqb (User.email u) email) (users db') = Some u /\
  User.email u = email /\
  tables db' = tables db /\ invites db' = invites db /\
  (users db' = users db \/
   users db' = users db ++ [u] /\
   ~ In email (map User.email (users db)) /\
   User.id u = next_id (map User.id (users db))).
Proof.
  unfold get_or_create_user.
  destruct (find _ (users db)) as [u0 |] eqn:F; intros H; injection H as <- <-.
  - split; [exact F |]. apply find_some in F. destruct F as [_ E].
    apply String.eqb_eq in E. auto.
  - cbn [add_user users tables invites User.email User.id].
    rewrite find_snoc, F. cbn [User.email]. rewrite String.eqb_refl.
    repeat split; try reflexivity. right.
    repeat split. apply find_email_none, F.
Qed.

Lemma get_or_create_user_found (db : Store) (email : string) (u : User.t) :
  find (fun u => String.eqb (User.email u) email) (users db) = Some u ->
  get_or_create_user db email = (db, u).
Proof. unfold get_or_create_user. intros ->. reflexivity. Qed.

Lemma get_or_create_user_constraints (db db' : Store) (email : string)
      (u : User.t) :
  get_or_create_user db email = (db', u) ->
  constraints_hold db -> constraints_hold db'.
Proof.
  intros H. apply get_or_create_user_spec in H.
  destruct H as [_ [Hu [Ht [Hi Hus]]]].
  unfold constraints_hold. rewrite Ht, Hi.
  intros [H1 [H2 [H3 [H4 [H5 [H6 H7]]]]]].
  repeat split; try assumption.
  - destruct Hus as [-> | [-> [_ Hid]]]; [exact H4 |].
    apply NoDup_snoc_next_id; assumption.
  - destruct Hus as [-> | [-> [Hne _]]]; [exact H5 |].
    rewrite map_app. cbn [map]. apply NoDup_snoc; [exact H5 |].
    rewrite Hu. exact Hne.
Qed.

Lemma require_user_spec (user_email : option string) (db : Store) :
  (exists email, user_email = Some email /\ truthy email = true /\
                 require_user user_email db
                 = Returns (get_or_create_user db email)) \/
  require_user user_email db
  = Raises (HTTPException 401
              "Login required. Use an invite link with ?token=...") db.
Proof.
  unfold require_user. destruct user_email as [email |]; [| right; reflexivity].
  destruct (truthy email) eqn:T; [left; eauto | right; reflexivity].
Qed.

(** ** The routes and the constraints of the tables *)

Lemma set_accepted_at_ids (l : list Invite.t) (event_id : Z) (token : string)
      (at_ : datetime) :
  map Invite.id (set_accepted_at l event_id token at_) = map Invite.id l /\
  map Invite.token (set_accepted_at l event_id token at_)
  = map Invite.token l.
Proof.
  induction l as [| i l [IH1 IH2]]; simpl; [split; reflexivity |].
  destruct ((Invite.event_id i =? event_id)
            && String.eqb (Invite.token i) token); simpl.
  - split; reflexivity.
  - rewrite IH1, IH2. split; reflexivity.
Qed.

Lemma constraints_add_event (db : Store) (e : Event.t) :
  Event.id e = next_id (map Event.id (events (tables db))) ->
  constraints_hold db -> constraints_hold (add_event db e).
Proof.
  unfold constraints_hold, add_event. cbn [tables events participants pledges
                                            users invites].
  intros E [H1 H]. split; [| exact H]. apply NoDup_snoc_next_id; assumption.
Qed.

Lemma constraints_add_participant (db : Store) (p : Participant.t) :
  Participant.id p = next_id (map Participant.id (participants (tables db))) ->
  constraints_hold db -> constraints_hold (add_participant db p).
Proof.
  unfold constraints_hold, add_participant.
  cbn [tables events participants pledges users invites].
  intros E [H1 [H2 H]]. split; [exact H1 |]. split; [| exact H].
  apply NoDup_snoc_next_id; assumption.
Qed.

Lemma constraints_add_pledge (db : Store) (p : Pledge.t) :
  Pledge.id p = next_id (map Pledge.id (pledges (tables db))) ->
  constraints_hold db -> constraints_hold (add_pledge db p).
Proof.
  unfold constraints_hold, add_pledge.
  cbn [tables events participants pledges users invites].
  intros E [H1 [H2 [H3 H]]]. split; [exact H1 |]. split; [exact H2 |].
  split; [| exact H]. apply NoDup_snoc_next_id; assumption.
Qed.

Lemma existsb_token_false (l : list Invite.t) (token : string) :
  existsb (fun i => String.eqb (Invite.token i) token) l = false ->
  ~ In token (map Invite.token l).
Proof.
  intros H Hin. apply in_map_iff in Hin. destruct Hin as [i [E Hi]].
  assert (T : existsb (fun i => String.eqb (Invite.token i) token) l = true).
  { apply existsb_exists. exists i. split; [exact Hi |].
    rewrite E. apply String.eqb_refl. }
  congruence.
Qed.

Lemma create_event_constraints (db : Store) (user_email token : option string)
      (title description currency : string) (total_amount : decimal) :
  constraints_hold db ->
  constraints_hold
    (left_by (create_event db user_email token title description currency
                           total_amount)).
Proof.
  intros H. unfold create_event.
  destruct (require_user_spec user_email db) as [[email [_ [_ ->]]] | ->];
    [| exact H].
  destruct (get_or_create_user db email) as [db1 user] eqn:G.
  cbn [and_then left_by].
  apply constraints_add_participant; [reflexivity |].
  apply constraints_add_event; [reflexivity |].
  eapply get_or_create_user_constraints; eassumption.
Qed.

Lemma invite_constraints (db : Store) (user_email token : option string)
      (uuid4 : string) (utcnow : datetime) (event_id : Z)
      (invite_email : string) :
  constraints_hold db ->
  constraints_hold
    (left_by (invite db user_email token uuid4 utcnow event_id invite_email)).
Proof.
  intros H. unfold invite.
  destruct (require_user_spec user_email db) as [[email [_ [_ ->]]] | ->];
    [| exact H].
  destruct (get_or_create_user db email) as [db1 user] eqn:G.
  cbn [and_then].
  pose proof (get_or_create_user_constraints _ _ _ _ G H) as H1.
  destruct (existsb _ (invites db1)) eqn:X; cbn [left_by]; [exact H1 |].
  unfold constraints_hold, add_invite in *.
  cbn [tables users invites].
  destruct H1 as [A [B [C [D [E [F I]]]]]].
  repeat split; try assumption.
  - apply NoDup_snoc_next_id; [exact F | reflexivity].
  - rewrite map_app. cbn [map Invite.token]. apply NoDup_snoc; [exact I |].
    apply existsb_token_false, X.
Qed.

Lemma join_constraints (db : Store) (utcnow utcnow' : datetime)
      (request_token : option string) (event_id : Z) (token : string) :
  constraints_hold db ->
  constraints_hold
    (left_by (join db utcnow utcnow' request_token event_id token)).
Proof.
  intros H. unfold join.
  destruct (query_invite db event_id token) as [inv |]; [| exact H].
  destruct (Invite.token_expires_at inv) as [expires |]; [| exact H].
  destruct (expires <? utcnow); [exact H |].
  set (db0 := mkStore (tables db) (users db)
                      (set_accepted_at (invites db) event_id token utcnow')).
  assert (H0 : constraints_hold db0).
  { unfold constraints_hold, db0 in *. cbn [tables users invites].
    destruct (set_accepted_at_ids (invites db) event_id token utcnow')
      as [-> ->]. exact H. }
  destruct (get_or_create_user db0 (Invite.email inv)) as [db1 user] eqn:G.
  pose proof (get_or_create_user_constraints _ _ _ _ G H0) as H1.
  cbn [left_by].
  destruct (find _ (participants (tables db1))); [exact H1 |].
  apply constraints_add_participant; [reflexivity | exact H1].
Qed.

Lemma pledge_constraints (db : Store) (user_email token : option string)
      (event_id participant_id : Z) (ptype : string)
      (value_type : option string) (value : option decimal) :
  constraints_hold db ->
  constraints_hold
    (left_by (pledge db user_email token event_id participant_id ptype
                     value_type value)).
Proof.
  intros H. unfold pledge.
  destruct (require_user_spec user_email db) as [[email [_ [_ ->]]] | ->];
    [| exact H].
  destruct (get_or_create_user db email) as [db1 user] eqn:G.
  cbn [and_then left_by].
  apply constraints_add_pledge; [reflexivity |].
  eapply get_or_create_user_constraints; eassumption.
Qed.

(** ** The pledge route and the allocations *)

Lemma query_pledges_add_pledge (db : Store) (p : Pledge.t) (event_id : Z)
      (ty : string) :
  query_pledges (tables (add_pledge db p)) event_id ty
  = query_pledges (tables db) event_id ty
    ++ (if (Pledge.event_id p =? event_id)
           && String.eqb (Pledge.type p) ty && Pledge.active p
        then [p] else []).
Proof.
  unfold query_pledges, add_pledge. cbn [tables pledges].
  rewrite filter_app. cbn [filter]. reflexivity.
Qed.

Lemma pledge_tables (db : Store) (user_email token : option string)
      (event_id participant_id : Z) (ptype : string)
      (value_type : option string) (value : option decimal) :
  let o := pledge db user_email token event_id participant_id ptype
                  value_type value in
  tables (left_by o) = tables db \/
  exists db1,
    tables db1 = tables db /\
    left_by o
    = add_pledge db1
        (Pledge.mk (next_id (map Pledge.id (pledges (tables db1))))
                   event_id participant_id ptype value_type value
                   (negb (String.eqb ptype "underpay_bid"))) /\
    (exists email, user_email = Some email /\ truthy email = true).
Proof.
  cbv zeta. unfold pledge.
  destruct (require_user_spec user_email db) as [[email [E [T ->]]] | ->];
    [| left; reflexivity].
  destruct (get_or_create_user db email) as [db1 user] eqn:G.
  cbn [and_then left_by]. right. exists db1.
  apply get_or_create_user_spec in G. destruct G as [_ [_ [Ht _]]].
  split; [exact Ht |]. split; [reflexivity | eauto].
Qed.

Lemma pledge_logged_in (db : Store) (email : string) (token : option string)
      (event_id participant_id : Z) (ptype : string)
      (value_type : option string) (value : option decimal) :
  truthy email = true ->
  exists db1,
    tables db1 = tables db /\
    pledge db (Some email) token event_id participant_id ptype value_type value
    = Returns
        (add_pledge db1
           (Pledge.mk (next_id (map Pledge.id (pledges (tables db1))))
                      event_id participant_id ptype value_type value
                      (negb (String.eqb ptype "underpay_bid"))),
         mkRedirect (event_url event_id token) 303).
Proof.
  intros T. unfold pledge, require_user. rewrite T.
  destruct (get_or_create_user db email) as [db1 user] eqn:G.
  cbn [and_then]. exists db1.
  apply get_or_create_user_spec in G. destruct G as [_ [_ [Ht _]]].
  split; [exact Ht | reflexivity].
Qed.

(** The exception of an overpay pledge of a stranger. *)
Lemma volunteer_overpay_unknown (targets : dict) (v : Pledge.t) :
  ~ In (Pledge.participant_id v) (keys targets) ->
  volunteer_overpay targets v
  = Err (unknown_participant_error (Pledge.value_type v) (Pledge.value v)).
Proof.
  intros Hout. unfold volunteer_overpay, unknown_participant_error, percent_of,
                 iadd.
  rewrite (getitem_not_In _ _ Hout).
  destruct (is_value_type (Pledge.value_type v) "percent"); [reflexivity |].
  destruct (is_value_type (Pledge.value_type v) "fixed"); [| reflexivity].
  destruct (Pledge.value v) as [d |]; [| reflexivity].
  rewrite cents_Some. reflexivity.
Qed.

(** ** [join] *)

Lemma find_set_accepted_at (l : list Invite.t) (event_id : Z) (token : string)
      (at_ : datetime) :
  find (fun i => (Invite.event_id i =? event_id)
                 && String.eqb (Invite.token i) token)
       (set_accepted_at l event_id token at_)
  = option_map
      (fun i => Invite.mk (Invite.id i) (Invite.event_id i) (Invite.email i)
                          (Invite.role i) (Invite.token i)
                          (Invite.token_expires_at i) (Some at_))
      (find (fun i => (Invite.event_id i =? event_id)
                      && String.eqb (Invite.token i) token) l).
Proof.
  induction l as [| i l IH]; [reflexivity |]. cbn [set_accepted_at find].
  destruct ((Invite.event_id i =? event_id)
            && String.eqb (Invite.token i) token) eqn:M.
  - cbn [find Invite.event_id Invite.token]. rewrite M. reflexivity.
  - cbn [find]. rewrite M. exact IH.
Qed.

(** What [join] does with an invite that is found and has not expired. *)
Lemma join_returns (db : Store) (utcnow utcnow' : datetime)
      (request_token : option string) (event_id : Z) (token : string)
      (inv : Invite.t) (expires : datetime) :
  query_invite db event_id token = Some inv ->
  Invite.token_expires_at inv = Some expires ->
  utcnow <= expires ->
  exists db',
    join db utcnow utcnow' request_token event_id token
    = Returns (db', mkRedirect (event_url event_id request_token) 303) /\
    participates db' (Invite.email inv) event_id /\
    events (tables db') = events (tables db) /\
    pledges (tables db') = pledges (tables db) /\
    invites db' = set_accepted_at (invites db) event_id token utcnow'.
Proof.
  intros Hq He Hle. unfold join. rewrite Hq, He.
  destruct (Z.ltb_spec expires utcnow) as [Hlt | _]; [lia |].
  set (db0 := mkStore (tables db) (users db)
                      (set_accepted_at (invites db) event_id token utcnow')).
  destruct (get_or_create_user db0 (Invite.email inv)) as [db1 user] eqn:G.
  apply get_or_create_user_spec in G.
  destruct G as [F [_ [Ht [Hi _]]]].
  destruct (find _ (participants (tables db1))) as [p |] eqn:P.
  - exists db1. split; [reflexivity |].
    split; [exists user, p; split; assumption |].
    rewrite Ht, Hi. repeat split.
  - eexists. split; [reflexivity |].
    unfold add_participant. cbn [tables events participants pledges
                                   users invites].
    split.
    + unfold participates. cbn [users tables participants].
      exists user. eexists. split; [exact F |].
      rewrite find_snoc, P. cbn [Participant.event_id Participant.user_id].
      rewrite !Z.eqb_refl. reflexivity.
    + rewrite Ht, Hi. repeat split.
Qed.

Lemma participates_In (db : Store) (email : string) (event_id : Z) :
  participates db email event_id ->
  exists u p, In u (users db) /\ User.email u = email /\
              In p (query_participants (tables db) event_id) /\
              Participant.user_id p = User.id u.
Proof.
  intros [u [p [Fu Fp]]]. exists u, p.
  apply find_some in Fu. destruct Fu as [Hu Eu]. apply String.eqb_eq in Eu.
  apply find_some in Fp. destruct Fp as [Hp Ep].
  apply andb_prop in Ep. destruct Ep as [E1 E2]. apply Z.eqb_eq in E2.
  repeat split; try assumption.
  unfold query_participants. apply filter_In. split; assumption.
Qed.

(** ** [chart_data] *)

Lemma allocs_get_keys (m : list (Z * decimal)) (default : decimal) :
  NoDup (map fst m) ->
  map (fun k => allocs_get m k default) (map fst m) = map snd m.
Proof.
  induction m as [| [k v] m IH]; intros H; [reflexivity |].
  inversion H as [| ? ? Hk Hm]; subst. cbn [map fst snd allocs_get].
  rewrite Z.eqb_refl. f_equal. rewrite <- (IH Hm).
  apply map_ext_in. intros k' Hk'.
  destruct (Z.eqb_spec k k') as [-> | _]; [contradiction | reflexivity].
Qed.

Lemma combine_fst_snd {A B : Type} (l : list (A * B)) :
  combine (map fst l) (map snd l) = l.
Proof.
  induction l as [| [a b] l IH]; [reflexivity |]. cbn. rewrite IH. reflexivity.
Qed.

Lemma label_of_truthy (p : Participant.t) : truthy (label_of p) = true.
Proof.
  unfold label_of. destruct (truthy (Participant.display_name p)) eqn:T;
    [exact T | reflexivity].
Qed.

(** ** New events *)

Lemma find_event_fresh (l : list Event.t) (e : Event.t) :
  Event.id e = next_id (map Event.id l) ->
  find (fun x => Event.id x =? Event.id e) (l ++ [e]) = Some e.
Proof.
  intros E. rewrite find_snoc, Z.eqb_refl.
  destruct (find _ l) as [y |] eqn:F; [| reflexivity].
  apply find_some in F. destruct F as [Hy Ey]. apply Z.eqb_eq in Ey.
  exfalso. apply (next_id_fresh (map Event.id l)).
  rewrite <- E, <- Ey. apply in_map, Hy.
Qed.

Lemma filter_none {A : Type} (f : A -> bool) (l : list A) :
  forallb (fun x => negb (f x)) l = true -> filter f l = [].
Proof.
  induction l as [| x l IH]; [reflexivity |]. cbn [forallb filter].
  intros H. apply andb_prop in H. destruct H as [Hx Hl].
  destruct (f x); [discriminate | apply IH, Hl].
Qed.

(** The allocations of an event with one participant and no pledge. *)
Lemma compute_allocations_single (db : Session) (event_id : Z) (ev : Event.t)
      (p : Participant.t) :
  query_event db event_id = Some ev ->
  query_participants db event_id = [p] ->
  query_pledges db event_id "volunteer_overpay" = [] ->
  query_pledges db event_id "underpay_bid" = [] ->
  compute_allocations db event_id
  = Ok [(Participant.id p, Event.total_amount ev)].
Proof.
  intros Hev Hp Hv Hb. unfold compute_allocations.
  rewrite Hev, Hp, Hv, Hb. cbn [total_amount_of bind]. rewrite cents_Some.
  cbn [bind]. unfold equal_split. cbn [List.length Z.of_nat Pos.of_succ_nat].
  unfold Py.floordiv. cbn [Z.eqb bind]. rewrite Z.div_1_r.
  replace (hundredths (Event.total_amount ev)
           - hundredths (Event.total_amount ev) * 1) with 0 by lia.
  cbn [Py.slice_to Z.leb Z.compare Z.to_nat firstn foldM map dict_of fold_left
       setitem fst snd bind].
  unfold final_correction. cbn [values map snd].
  rewrite sum_cons, sum_nil.
  replace (hundredths (Event.total_amount ev)
           - (hundredths (Event.total_amount ev) + 0)) with 0 by lia.
  cbn [Z.eqb negb bind map fst snd]. rewrite money_Dec, decimal_eta.
  reflexivity.
Qed.

(** ** The cents behind the amounts returned *)

(** Whenever [compute_allocations] returns, the mapping is [money] of the
    targets that the final correction leaves, and these cents sum to the
    cents of the total. *)
Lemma compute_allocations_cents (db : Session) (event_id : Z) (ev : Event.t)
      (total_cents : Z) (m : list (Z * decimal)) :
  query_event db event_id = Some ev ->
  query_participants db event_id <> [] ->
  cents (Some (Event.total_amount ev)) = Ok total_cents ->
  compute_allocations db event_id = Ok m ->
  exists targets targets',
    targets_at_bid db event_id
      (List.length (query_pledges db event_id "underpay_bid")) = Ok targets /\
    final_correction total_cents targets = Ok targets' /\
    m = map (fun kv => (fst kv, money (snd kv))) targets' /\
    Py.sum (values targets') = total_cents.
Proof.
  intros Hev Hne Hc H. rewrite cents_Some in Hc. injection Hc as <-.
  rewrite (compute_allocations_unfold _ _ _ Hev Hne) in H.
  bind_inv H. rename a into targets. bind_inv H. rename a into targets'.
  injection H as <-. exists targets, targets'.
  split; [exact Ha |]. split; [exact Ha0 |]. split; [reflexivity |].
  apply final_correction_sum in Ha0. tauto.
Qed.


(** * The claims *)



(** C2. The code does not return what C2 states: with 300 cents, three
    participants and a fixed overpay of 50 cents by A, the mapping returned
    is not A = 150, B = 100, C = 100. *)
Lemma fixed_overpay_not_on_top :
  compute_allocations Ex.fixed_overpay 1
  <> Ok [(Ex.A, Dec 150); (Ex.B, Dec 100); (Ex.C, Dec 100)].
Proof. vm_compute. discriminate. Qed.

(** C2. The code at the input of the claim, where it loses the overpay.
    With 300 cents, three participants and a fixed overpay of 50 cents by
    A, the overpay loop of lines 121-127 leaves the targets A = 150,
    B = 100, C = 100, as C2 states them; the final correction of lines
    151-153 then finds a gap of -50 cents and puts the whole of it on the
    participant with the largest target, which is A; the mapping returned
    is A = 100, B = 100, C = 100, the equal split, as if A had pledged
    nothing. *)
Theorem fixed_overpay_rebalanced :
  targets_at_bid Ex.fixed_overpay 1 0
  = Ok [(Ex.A, 150); (Ex.B, 100); (Ex.C, 100)] /\
  max_key [(Ex.A, 150); (Ex.B, 100); (Ex.C, 100)] = Ok Ex.A /\
  final_correction 300 [(Ex.A, 150); (Ex.B, 100); (Ex.C, 100)]
  = Ok [(Ex.A, 100); (Ex.B, 100); (Ex.C, 100)] /\
  compute_allocations Ex.fixed_overpay 1
  = Ok [(Ex.A, Dec 100); (Ex.B, Dec 100); (Ex.C, Dec 100)].
Proof. repeat split; vm_compute; reflexivity. Qed.

(** C3. With 300 cents, three participants and a bid of A to pay 50 percent
    less, the shortfall is 50 cents, the floor shares of B and C are
    [50 * 100 // 200 = 25] cents each, nothing is left over, and the mapping
    returned is A = 50, B = 125, C = 125, which sums to 300. *)
Theorem percent_underpay_redistributed :
  let targets := [(Ex.A, 100); (Ex.B, 100); (Ex.C, 100)] in
  let bid := Ex.pledge 1 Ex.A "underpay_bid" "percent" 5000 in
  targets_at_bid Ex.percent_underpay 1 0 = Ok targets /\
  bid_shortfall targets bid = Ok 50 /\
  floor_shares (after_take targets Ex.A 50) [Ex.B; Ex.C] 50 200
  = Ok [(Ex.B, 50 * 100 / 200); (Ex.C, 50 * 100 / 200)] /\
  50 * 100 / 200 = 25 /\
  underpay_bid targets bid = Ok [(Ex.A, 50); (Ex.B, 125); (Ex.C, 125)] /\
  compute_allocations Ex.percent_underpay 1
  = Ok [(Ex.A, Dec 50); (Ex.B, Dec 125); (Ex.C, Dec 125)] /\
  total_of [(Ex.A, Dec 50); (Ex.B, Dec 125); (Ex.C, Dec 125)] = 300.
Proof. repeat split; vm_compute; reflexivity. Qed.



(** C5, as the specification states it, does not hold: a bid of 150 percent
    on a target of 100 cents has a shortfall of 150 cents, and line 139
    leaves the target of the bidder at -50 cents. *)
Lemma percent_bid_overdraws :
  let targets := [(Ex.A, 100); (Ex.B, 100); (Ex.C, 100)] in
  let bid := Ex.pledge 1 Ex.A "underpay_bid" "percent" 15000 in
  targets_at_bid Ex.percent_overdrawn 1 0 = Ok targets /\
  In bid (query_pledges Ex.percent_overdrawn 1 "underpay_bid") /\
  bid_shortfall targets bid = Ok 150 /\
  take_shortfall targets Ex.A 150
  = Ok [(Ex.A, -50); (Ex.B, 100); (Ex.C, 100)] /\
  value_at [(Ex.A, -50); (Ex.B, 100); (Ex.C, 100)] Ex.A < 0 /\
  compute_allocations Ex.percent_overdrawn 1
  = Ok [(Ex.A, Dec (-50)); (Ex.B, Dec 175); (Ex.C, Dec 175)].
Proof.
  repeat split; try (vm_compute; reflexivity). left; reflexivity.
Qed.

(** C5, amended. For a bid that is fixed, or percent with a value between 0
    and 100 on a target of the bidder that fits the column (fewer than
    10^12 cents, where the product and the quotient of line 134 on floats
    cannot exceed the target), whatever the other targets when the loop
    reaches it: subtracting its shortfall on line 139 leaves the target of
    the bidder at zero or above; and the shortfall of a fixed bid is
    [min(cents(value), target)]. *)
Theorem underpay_keeps_target_nonnegative (targets : dict) (b : Pledge.t)
        (t shortfall : Z) :
  getitem targets (Pledge.participant_id b) = Ok t ->
  bid_shortfall targets b = Ok shortfall ->
  0 < shortfall ->
  (is_value_type (Pledge.value_type b) "percent" = true ->
   fits_column t = true /\
   exists d, Pledge.value b = Some d /\ 0 <= hundredths d <= 10000) ->
  (exists targets1,
     take_shortfall targets (Pledge.participant_id b) shortfall = Ok targets1 /\
     getitem targets1 (Pledge.participant_id b) = Ok (t - shortfall) /\
     0 <= t - shortfall) /\
  (is_value_type (Pledge.value_type b) "percent" = false ->
   is_value_type (Pledge.value_type b) "fixed" = true ->
   exists c, cents (Pledge.value b) = Ok c /\ shortfall = Z.min c t).
Proof.
  intros Ht Hs Hpos Hpc.
  assert (Hin : In (Pledge.participant_id b) (keys targets))
    by (eapply getitem_In_keys; eassumption).
  pose proof (value_at_Ok _ _ _ Ht) as Hv.
  split.
  - exists (after_take targets (Pledge.participant_id b) shortfall).
    split; [apply take_shortfall_Ok, Hin |].
    unfold after_take. rewrite getitem_setitem_same, Hv.
    split; [reflexivity |].
    unfold bid_shortfall in Hs.
    destruct (is_value_type (Pledge.value_type b) "percent").
    + destruct (Hpc eq_refl) as [_ [d [Hd Hrange]]]. rewrite Hd in Hs.
      rewrite percent_of_Ok in Hs by assumption. injection Hs as Hs.
      rewrite Hv in Hs. subst shortfall.
      pose proof (percent_at_most t (hundredths d) Hrange Hpos). lia.
    + destruct (is_value_type (Pledge.value_type b) "fixed").
      * bind_inv Hs. rewrite Ht in Hs. simpl in Hs. injection Hs as Hs. lia.
      * injection Hs as Hs. lia.
  - intros Hnp Hfx. unfold bid_shortfall in Hs. rewrite Hnp, Hfx in Hs.
    bind_inv Hs. rewrite Ht in Hs. simpl in Hs. injection Hs as Hs.
    exists a. split; [exact Ha | congruence].
Qed.

Lemma underpay_keeps_target_nonnegative_witness :
  exists targets1,
    take_shortfall [(Ex.A, 100); (Ex.B, 100); (Ex.C, 100)] Ex.A 50
    = Ok targets1 /\
    getitem targets1 Ex.A = Ok (100 - 50) /\ 0 <= 100 - 50.
Proof.
  apply (underpay_keeps_target_nonnegative
           [(Ex.A, 100); (Ex.B, 100); (Ex.C, 100)]
           (Ex.pledge 1 Ex.A "underpay_bid" "percent" 5000) 100 50).
  - reflexivity.
  - vm_compute; reflexivity.
  - lia.
  - intros _. split; [reflexivity |].
    exists (Dec 5000). split; [reflexivity | simpl; lia].
Defined.

(** C6, as the specification states it, does not hold: the leftover cents
    are not all assigned. With 300 cents and the participants A and B who
    both bid 100 percent, the bid of A finds the targets A = 300, B = 0 and
    has a shortfall of 300 cents; the other target is 0, so the denominator
    of line 141 is 1, the floor share of B is 0 and all 300 cents are left
    over; the slice of line 145 has one element only, B gets one cent, and
    the bid leaves targets that sum to 1 cent: 299 leftover cents are
    assigned to nobody. *)
Lemma leftover_cents_not_all_assigned :
  let targets := [(Ex.A, 300); (Ex.B, 0)] in
  let bid := Ex.pledge 2 Ex.A "underpay_bid" "percent" 10000 in
  let targets1 := after_take targets Ex.A 300 in
  nth_error (query_pledges Ex4.two_bidders 1 "underpay_bid") 1 = Some bid /\
  targets_at_bid Ex4.two_bidders 1 1 = Ok targets /\
  bid_shortfall targets bid = Ok 300 /\
  others_of targets1 Ex.A = [Ex.B] /\
  denom_of targets1 [Ex.B] = Ok 1 /\
  floor_shares targets1 [Ex.B] 300 1 = Ok [(Ex.B, 0)] /\
  leftover_at targets1 [Ex.B] 300 = 300 /\
  winners_at targets1 [Ex.B] 300 = [Ex.B] /\
  underpay_bid targets bid = Ok [(Ex.A, 0); (Ex.B, 1)] /\
  Z.of_nat (List.length (winners_at targets1 [Ex.B] 300))
  < leftover_at targets1 [Ex.B] 300 /\
  Py.sum (values [(Ex.A, 0); (Ex.B, 1)]) = Py.sum (values targets) - 299.
Proof. repeat split; vm_compute; reflexivity. Qed.

(** C6, amended. For a bid that the loop reaches with the targets
    [targets], of shortfall [shortfall > 0], whose floor shares leave
    [leftover > 0] cents: one leftover cent goes to each of the first
    [leftover] of the other participants in the order of descending current
    target, as many cents as the smaller of [leftover] and the number of
    the others, so that whoever gets a cent has a target at least as large
    as whoever does not; every other participant ends with its target plus
    its floor share plus that cent, the bidder with its target minus the
    shortfall; when the targets of the others are not negative and not all
    zero, the leftover cents are fewer than the others, so that all of them
    are handed out and the bid leaves the sum of the targets as it was;
    the cents that are not handed out are left to the final correction:
    whenever [compute_allocations] returns, its mapping is [money] of
    integer targets that sum to the cents of the total exactly. *)
Theorem leftover_cents_largest_first (db : Session) (event_id : Z)
        (ev : Event.t) (total_cents : Z) (n : nat) (b : Pledge.t)
        (targets : dict) (shortfall : Z) :
  query_event db event_id = Some ev ->
  query_participants db event_id <> [] ->
  cents (Some (Event.total_amount ev)) = Ok total_cents ->
  nth_error (query_pledges db event_id "underpay_bid") n = Some b ->
  targets_at_bid db event_id n = Ok targets ->
  bid_shortfall targets b = Ok shortfall ->
  0 < shortfall ->
  let pid := Pledge.participant_id b in
  let targets1 := after_take targets pid shortfall in
  let others := others_of targets1 pid in
  let leftover := leftover_at targets1 others shortfall in
  0 < leftover ->
  exists (winners : list Z) (targets' : dict),
    (denom_of targets1 others = Ok (denom_at targets1 others) /\
     floor_shares targets1 others shortfall (denom_at targets1 others)
     = Ok (floors_at targets1 others shortfall) /\
     leftover
     = shortfall - Py.sum (values (floors_at targets1 others shortfall)) /\
     by_target_desc targets1 others = Ok (order_at targets1 others)) /\
    winners = firstn (Z.to_nat leftover) (order_at targets1 others) /\
    Z.of_nat (List.length winners)
    = Z.min leftover (Z.of_nat (List.length others)) /\
    (forall p q, In p winners -> In q others -> ~ In q winners ->
                 value_at targets1 q <= value_at targets1 p) /\
    underpay_bid targets b = Ok targets' /\
    targets_at_bid db event_id (S n) = Ok targets' /\
    value_at targets' pid = value_at targets pid - shortfall /\
    (forall p, In p others ->
               value_at targets' p
               = value_at targets1 p + floor_share targets1 others shortfall p
                 + (if in_dec Z.eq_dec p winners then 1 else 0)) /\
    ((forall p, In p others -> 0 <= value_at targets1 p) ->
     0 < Py.sum (map (value_at targets1) others) ->
     Z.of_nat (List.length winners) = leftover /\
     Py.sum (values targets') = Py.sum (values targets)) /\
    (forall m, compute_allocations db event_id = Ok m ->
       exists final,
         m = map (fun kv => (fst kv, money (snd kv))) final /\
         Py.sum (values final) = total_cents).
Proof.
  intros Hev Hne Hc Hb Htg Hs Hpos pid targets1 others leftover Hleft.
  destruct (targets_at_bid_keys db event_id n targets Hne Htg) as [Hnd _].
  assert (Hin : In pid (keys targets))
    by (apply (bid_shortfall_positive _ _ _ Hs Hpos)).
  assert (Hincl : incl others (keys targets1)).
  { intros p Hp. apply others_of_In in Hp. tauto. }
  assert (Hbid : underpay_bid targets b = redistribute targets pid shortfall).
  { unfold underpay_bid. rewrite Hs. cbn [bind].
    destruct (Z.leb_spec shortfall 0); [lia | reflexivity]. }
  destruct (redistribute_Ok targets pid shortfall Hin) as [targets' [Hr _]].
  destruct (redistribute_values targets targets' pid shortfall Hnd Hin Hr)
    as [_ [Hpid Hothers]].
  fold targets1 others in Hothers. fold leftover in Hothers.
  rewrite slice_to_nonneg in Hothers by lia.
  exists (firstn (Z.to_nat leftover) (order_at targets1 others)), targets'.
  split.
  { assert (Hnd1 : NoDup others).
    { apply others_of_NoDup. unfold targets1.
      rewrite keys_after_take by assumption. exact Hnd. }
    split; [apply denom_of_Ok, Hincl |].
    split.
    { rewrite floor_shares_Ok by assumption. f_equal.
      apply dict_of_NoDup. unfold floors_at. rewrite map_map. cbn [fst].
      rewrite map_id. exact Hnd1. }
    split; [| apply by_target_desc_Ok, Hincl].
    unfold leftover, leftover_at, values, floors_at. rewrite map_map.
    reflexivity. }
  split; [reflexivity |].
  split.
  { rewrite length_firstn,
      <- (Permutation_length (order_at_perm targets1 others)). lia. }
  split.
  { intros p q Hp Hq Hnq.
    pose proof (order_at_sorted targets1 others) as Hsorted.
    rewrite <- (firstn_skipn (Z.to_nat leftover)) in Hsorted.
    apply (StronglySorted_app_inv _ _ _ Hsorted p q Hp).
    apply (Permutation_in _ (order_at_perm targets1 others)) in Hq.
    rewrite <- (firstn_skipn (Z.to_nat leftover)) in Hq.
    apply in_app_or in Hq. destruct Hq as [Hq | Hq]; [contradiction | exact Hq]. }
  split; [rewrite Hbid; exact Hr |].
  split; [rewrite (targets_at_bid_S _ _ _ _ _ Hb Htg), Hbid; exact Hr |].
  split; [exact Hpid |].
  split; [exact Hothers |].
  split.
  { intros Hnonneg Hsum.
    destruct (leftover_below_others targets1 others shortfall
                ltac:(lia) Hnonneg Hsum) as [_ Hlt].
    fold leftover in Hlt.
    assert (Hlen : Z.of_nat (List.length
                     (firstn (Z.to_nat leftover) (order_at targets1 others)))
                   = leftover).
    { rewrite firstn_length_le; [lia |].
      rewrite <- (Permutation_length (order_at_perm targets1 others)). lia. }
    split; [exact Hlen |].
    pose proof (redistribute_sum targets targets' pid shortfall Hnd Hin Hr)
      as Hsum'.
    fold targets1 others in Hsum'. fold leftover in Hsum'.
    rewrite slice_to_nonneg in Hsum' by lia. lia. }
  intros m Hm.
  destruct (compute_allocations_cents db event_id ev total_cents m
              Hev Hne Hc Hm) as [_ [final [_ [_ [H3 H4]]]]].
  exists final. split; assumption.
Qed.

Lemma leftover_cents_largest_first_witness :
  exists targets',
    underpay_bid [(Ex.A, 34); (Ex.B, 33); (Ex.C, 33)]
                 (Ex.pledge 1 Ex.C "underpay_bid" "percent" 5000)
    = Ok targets' /\
    value_at targets' Ex.A = 34 + 16 * 34 / 67 + 1 /\
    value_at targets' Ex.B = 33 + 16 * 33 / 67 + 0 /\
    value_at targets' Ex.C = 33 - 16 /\
    exists final,
      [(Ex.A, Dec 43); (Ex.B, Dec 40); (Ex.C, Dec 17)]
      = map (fun kv => (fst kv, money (snd kv))) final /\
      Py.sum (values final) = 100.
Proof.
  destruct (leftover_cents_largest_first Ex.leftover_cent 1 (Ex.event 100)
              100 0%nat (Ex.pledge 1 Ex.C "underpay_bid" "percent" 5000)
              [(Ex.A, 34); (Ex.B, 33); (Ex.C, 33)] 16)
    as [winners [targets' [_ [Hw [_ [_ [Hbid [_ [Hc [Hothers [_ Hm]]]]]]]]]]].
  - reflexivity.
  - discriminate.
  - vm_compute; reflexivity.
  - reflexivity.
  - vm_compute; reflexivity.
  - vm_compute; reflexivity.
  - lia.
  - vm_compute; reflexivity.
  - exists targets'. split; [exact Hbid |].
    split; [rewrite (Hothers Ex.A) by (left; reflexivity); rewrite Hw;
            vm_compute; reflexivity |].
    split; [rewrite (Hothers Ex.B) by (right; left; reflexivity); rewrite Hw;
            vm_compute; reflexivity |].
    split; [exact Hc |]. apply Hm. vm_compute; reflexivity.
Defined.

(** C7. No participants. When the event has no participant,
    [compute_allocations] returns the empty mapping: it raises nothing, a
    [ZeroDivisionError] included, whatever the total and the pledges. *)
Theorem no_participants_empty_mapping (db : Session) (event_id : Z) :
  query_participants db event_id = [] ->
  compute_allocations db event_id = Ok [].
Proof.
  intros H. unfold compute_allocations. rewrite H. reflexivity.
Qed.

Lemma no_participants_empty_mapping_witness :
  query_participants Ex.nobody 1 = [] /\
  compute_allocations Ex.nobody 1 = Ok [].
Proof.
  split; [reflexivity |].
  apply (no_participants_empty_mapping Ex.nobody 1). reflexivity.
Defined.

(** C8, as the specification states it, does not hold: with an active bid of
    -50 percent, [compute_allocations] raises nothing and returns the equal
    split. *)
Lemma negative_percent_accepted :
  (exists p d, In p (active_pledges Ex.negative_percent 1) /\
               Pledge.value_type p = Some "percent"%string /\
               Pledge.value p = Some d /\ hundredths d < 0) /\
  compute_allocations Ex.negative_percent 1
  = Ok [(Ex.A, Dec 100); (Ex.B, Dec 100); (Ex.C, Dec 100)].
Proof.
  split; [| vm_compute; reflexivity].
  exists (Ex.pledge 1 Ex.A "underpay_bid" "percent" (-5000)), (Dec (-5000)).
  repeat split; try (vm_compute; reflexivity). left; reflexivity.
Qed.

(** C8, amended. A negative percentage is not rejected: nothing in
    [compute_allocations] looks at its sign. For an active percent pledge
    whose value is negative, on a target of its participant that is not
    negative, both of the size of the column: as a bid, its shortfall is
    not positive and line 137 skips it, the targets staying as they are;
    as an overpay, what line 127 adds is not positive, so that the target
    is lowered or stays. Neither raises. *)
Theorem negative_percent_not_rejected (targets : dict) (p : Pledge.t)
        (d : decimal) (t : Z) :
  Pledge.value_type p = Some "percent"%string ->
  Pledge.value p = Some d ->
  hundredths d < 0 ->
  fits_column (hundredths d) = true ->
  getitem targets (Pledge.participant_id p) = Ok t ->
  0 <= t ->
  fits_column t = true ->
  underpay_bid targets p = Ok targets /\
  exists add,
    add <= 0 /\
    volunteer_overpay targets p
    = Ok (setitem targets (Pledge.participant_id p) (t + add)).
Proof.
  intros Hvt Hv Hneg _ Ht Hpos _.
  set (add := Py.round (inject_Z t * (hundredths d # 100) / 100)).
  assert (Hp : percent_of targets (Pledge.participant_id p) (Pledge.value p)
               = Ok add).
  { unfold percent_of. rewrite Ht, Hv. reflexivity. }
  assert (Hadd : add <= 0).
  { unfold add, Py.round. simpl Qnum. simpl Qden.
    apply round_half_even_le; nia. }
  split.
  - unfold underpay_bid, bid_shortfall. rewrite Hvt.
    cbn [is_value_type]. rewrite String.eqb_refl, Hp. cbn [bind].
    destruct (Z.leb_spec add 0); [reflexivity | lia].
  - exists add. split; [exact Hadd |].
    unfold volunteer_overpay. rewrite Hvt.
    cbn [is_value_type]. rewrite String.eqb_refl, Hp. cbn [bind].
    unfold iadd. rewrite Ht. reflexivity.
Qed.

Lemma negative_percent_not_rejected_witness :
  underpay_bid [(Ex.A, 100); (Ex.B, 100); (Ex.C, 100)]
               (Ex.pledge 1 Ex.A "underpay_bid" "percent" (-5000))
  = Ok [(Ex.A, 100); (Ex.B, 100); (Ex.C, 100)] /\
  exists add,
    add <= 0 /\
    volunteer_overpay [(Ex.A, 100); (Ex.B, 100); (Ex.C, 100)]
                      (Ex.pledge 1 Ex.A "underpay_bid" "percent" (-5000))
    = Ok (setitem [(Ex.A, 100); (Ex.B, 100); (Ex.C, 100)]
                  (Pledge.participant_id
                     (Ex.pledge 1 Ex.A "underpay_bid" "percent" (-5000)))
                  (100 + add)).
Proof.
  apply (negative_percent_not_rejected
           [(Ex.A, 100); (Ex.B, 100); (Ex.C, 100)]
           (Ex.pledge 1 Ex.A "underpay_bid" "percent" (-5000))
           (Dec (-5000)) 100).
  - reflexivity.
  - reflexivity.
  - simpl; lia.
  - reflexivity.
  - reflexivity.
  - lia.
  - reflexivity.
Defined.

(** C9. Determinism. Two calls of [compute_allocations] whose inputs are the
    same (the same total, the same participant ids in the same order, the
    same active pledges in the same order) return the same mapping, or raise
    the same exception. *)
Theorem same_inputs_same_mapping (db1 db2 : Session) (e1 e2 : Z) :
  option_map Event.total_amount (query_event db1 e1)
  = option_map Event.total_amount (query_event db2 e2) ->
  map Participant.id (query_participants db1 e1)
  = map Participant.id (query_participants db2 e2) ->
  map pledge_input (active_pledges db1 e1)
  = map pledge_input (active_pledges db2 e2) ->
  compute_allocations db1 e1 = compute_allocations db2 e2.
Proof.
  intros Hev Hparts Hpl.
  assert (Hq : forall ty,
             map pledge_input (query_pledges db1 e1 ty)
             = map pledge_input (query_pledges db2 e2 ty)).
  { intros ty. rewrite !query_pledges_of_active.
    apply filter_map_ext; [| exact Hpl].
    intros a b Hab. unfold pledge_input in Hab.
    injection Hab as _ -> _ _. reflexivity. }
  apply compute_allocations_ext; auto.
Qed.

Lemma same_inputs_same_mapping_witness :
  compute_allocations Ex.mixed 1 = compute_allocations Ex2.mixed_again 5.
Proof.
  apply (same_inputs_same_mapping Ex.mixed Ex2.mixed_again 1 5);
    reflexivity.
Defined.

(** C10. Pledges of type equal are not read: two tables of pledges that
    differ in their pledges of type equal only, whatever the value type,
    the value and the active flag of these, give the same result, which is
    also the result once the pledges of type equal are removed. *)
Theorem equal_pledges_ignored (db : Session) (ps1 ps2 : list Pledge.t)
        (event_id : Z) :
  without_equal ps1 = without_equal ps2 ->
  compute_allocations (with_pledges db ps1) event_id
  = compute_allocations (with_pledges db ps2) event_id /\
  compute_allocations (with_pledges db (without_equal ps1)) event_id
  = compute_allocations (with_pledges db ps1) event_id.
Proof.
  intros H.
  assert (Hq : forall ps ty, ty <> "equal"%string ->
             map pledge_input
                 (query_pledges (with_pledges db (without_equal ps))
                                event_id ty)
             = map pledge_input
                   (query_pledges (with_pledges db ps) event_id ty)).
  { intros ps ty Hty. rewrite query_pledges_without_equal by assumption.
    reflexivity. }
  assert (Hrm : forall ps,
             compute_allocations (with_pledges db (without_equal ps)) event_id
             = compute_allocations (with_pledges db ps) event_id).
  { intros ps. apply compute_allocations_ext; try reflexivity;
      apply Hq; discriminate. }
  split; [| apply Hrm].
  rewrite <- (Hrm ps1), <- (Hrm ps2), H. reflexivity.
Qed.

Lemma equal_pledges_ignored_witness :
  compute_allocations (with_pledges Ex.mixed (pledges Ex.mixed)) 1
  = compute_allocations (with_pledges Ex.mixed Ex2.other_equal_pledges) 1 /\
  compute_allocations
    (with_pledges Ex.mixed (without_equal (pledges Ex.mixed))) 1
  = compute_allocations (with_pledges Ex.mixed (pledges Ex.mixed)) 1.
Proof.
  apply (equal_pledges_ignored Ex.mixed (pledges Ex.mixed)
                               Ex2.other_equal_pledges 1).
  reflexivity.
Defined.

(** * Further properties *)

(** X1. On amounts that fit the column, [cents] and [money] are inverse to
    each other: the cents of the amount of [c] cents are [c], and the
    amount of the cents of a decimal is that decimal. *)
Theorem cents_money_round_trip (c : Z) (d : decimal) :
  fits_column c = true ->
  fits_column (hundredths d) = true ->
  cents (Some (money c)) = Ok c /\
  exists h, cents (Some d) = Ok h /\ money h = d.
Proof.
  intros _ _. split.
  - rewrite cents_Some, money_hundredths. reflexivity.
  - exists (hundredths d). split; [apply cents_Some |].
    rewrite money_Dec. apply decimal_eta.
Qed.

Lemma cents_money_round_trip_witness :
  cents (Some (money 1234)) = Ok 1234 /\
  exists h, cents (Some (Dec 1234)) = Ok h /\ money h = Dec 1234.
Proof.
  apply (cents_money_round_trip 1234 (Dec 1234)); reflexivity.
Defined.

(** X2. For an event with participants, [compute_allocations] raises
    [AttributeError] when the event does not exist, and it returns a
    mapping only when every active overpay pledge references a participant
    of the event and every active overpay pledge and every active bid whose
    value type is percent or fixed has its value, such a bid referencing a
    participant of the event too: otherwise it raises. A bid of another
    value type is skipped whatever it references, the targets staying as
    they are. *)
Theorem returns_only_if_readable (db : Session) (event_id : Z) :
  query_participants db event_id <> [] ->
  (query_event db event_id = None ->
   compute_allocations db event_id = Err AttributeError) /\
  (forall m, compute_allocations db event_id = Ok m ->
             readable db event_id = true) /\
  (forall targets b,
     is_value_type (Pledge.value_type b) "percent" = false ->
     is_value_type (Pledge.value_type b) "fixed" = false ->
     underpay_bid targets b = Ok targets).
Proof.
  intros Hne.
  assert (Hnone : query_event db event_id = None ->
                  compute_allocations db event_id = Err AttributeError).
  { intros Hev. unfold compute_allocations. rewrite Hev.
    destruct (query_participants db event_id); [congruence | reflexivity]. }
  split; [exact Hnone |]. split.
  - intros m H. destruct (query_event db event_id) as [ev |] eqn:Hev;
      [| rewrite (Hnone eq_refl) in H; discriminate].
    unfold readable.
    set (ids := map Participant.id (query_participants db event_id)).
    rewrite (compute_allocations_unfold _ _ _ Hev Hne) in H.
    bind_inv H. clear H. rename a into t2. unfold targets_at_bid in Ha.
    rewrite Hev in Ha. cbn [total_amount_of bind] in Ha.
    rewrite cents_Some in Ha. cbn [bind] in Ha.
    bind_inv Ha. rename a into t0. bind_inv Ha. rename a into t1.
    rewrite firstn_all in Ha.
    destruct (equal_split_Ok (hundredths (Event.total_amount ev)) _ Hne)
      as [t0' [E [_ K0]]].
    rewrite Ha0 in E. injection E as <-. fold ids in K0.
    destruct (foldM_Ok_Forall volunteer_overpay
                (fun tg => forall x, In x (keys tg) <-> In x ids)
                (fun v => overpay_readable ids v = true)
                (fun s x s' => overpay_Ok_readable ids s s' x)
                _ _ _ K0 Ha1) as [Hv K1].
    destruct (foldM_Ok_Forall underpay_bid
                (fun tg => forall x, In x (keys tg) <-> In x ids)
                (fun b => bid_readable ids b = true)
                (fun s x s' => bid_Ok_readable ids s s' x)
                _ _ _ K1 Ha) as [Hb _].
    apply andb_true_intro. split; apply forallb_forall;
      rewrite Forall_forall in *; assumption.
  - intros targets b Hp Hf. unfold underpay_bid, bid_shortfall.
    rewrite Hp, Hf. reflexivity.
Qed.

Lemma returns_only_if_readable_witness :
  readable Ex.mixed 1 = true.
Proof.
  destruct (returns_only_if_readable Ex.mixed 1) as [_ [H _]].
  - discriminate.
  - apply (H [(Ex.A, Dec 34); (Ex.B, Dec 66); (Ex.C, Dec 0)]).
    vm_compute; reflexivity.
Defined.



(** X4. Amounts in range keep the targets at zero or above, step by step:
    the equal split of a total that is not negative has no negative
    target; an overpay that is not negative, on targets none of which is
    negative, leaves such targets; and so does a bid that is fixed, or
    percent between 0 and 100 on a target of the bidder that fits the
    column, whatever its shortfall and the cents it leaves over. *)
Theorem targets_stay_nonnegative :
  (forall total_cents parts targets,
     0 <= total_cents ->
     equal_split total_cents parts = Ok targets ->
     nonneg targets) /\
  (forall targets targets' v,
     nonneg targets ->
     overpay_in_range v = true ->
     volunteer_overpay targets v = Ok targets' ->
     nonneg targets') /\
  (forall targets targets' b,
     nonneg targets ->
     bid_in_range b = true ->
     (forall t, is_value_type (Pledge.value_type b) "percent" = true ->
                getitem targets (Pledge.participant_id b) = Ok t ->
                fits_column t = true) ->
     underpay_bid targets b = Ok targets' ->
     nonneg targets').
Proof.
  split; [| split].
  - intros total_cents parts targets HT H.
    eapply nonneg_equal_split; eassumption.
  - intros targets targets' v Hd Hv H.
    eapply nonneg_volunteer_overpay; eassumption.
  - intros targets targets' b Hd Hb _ H.
    eapply nonneg_underpay_bid; eassumption.
Qed.

Lemma targets_stay_nonnegative_witness :
  nonneg [(Ex.A, 50); (Ex.B, 53); (Ex.C, 0)].
Proof.
  destruct targets_stay_nonnegative as [_ [_ H]].
  apply (H [(Ex.A, 34); (Ex.B, 36); (Ex.C, 33)]
           [(Ex.A, 50); (Ex.B, 53); (Ex.C, 0)]
           (Ex.pledge 9 Ex.C "underpay_bid" "percent" 10000)).
  - repeat constructor; simpl; lia.
  - reflexivity.
  - intros t _ Ht. vm_compute in Ht. injection Ht as <-. reflexivity.
  - vm_compute; reflexivity.
Defined.

(** X16. The final correction changes one target at most: the targets that
    sum to the total are left as they are, and otherwise the whole gap goes
    to the first participant, in the order of the dictionary, whose target
    is the largest, every other target staying as it is. *)
Theorem final_correction_hits_first_largest (total_cents : Z)
        (targets targets' : dict) :
  NoDup (keys targets) ->
  final_correction total_cents targets = Ok targets' ->
  let gap := total_cents - Py.sum (values targets) in
  (gap = 0 /\ targets' = targets) \/
  (gap <> 0 /\
   exists pre pid t post,
     targets = pre ++ (pid, t) :: post /\
     Forall (fun kv => snd kv < t) pre /\
     Forall (fun kv => snd kv <= t) post /\
     targets' = pre ++ (pid, t + gap) :: post).
Proof.
  intros Hnd H gap. unfold final_correction in H. fold gap in H.
  destruct (Z.eqb_spec gap 0) as [E | N]; cbn [negb] in H.
  - left. injection H as <-. auto.
  - right. split; [exact N |]. bind_inv H. rename a into pid.
    destruct (max_key_first_largest _ _ Ha) as [pre [t [post [E [Hp Hq]]]]].
    exists pre, pid, t, post. repeat split; try assumption.
    assert (Hout : ~ In pid (keys pre)).
    { rewrite E in Hnd. unfold keys in *. rewrite map_app in Hnd.
      cbn [map fst] in Hnd. apply NoDup_remove_2 in Hnd.
      intros Hin. apply Hnd, in_or_app. left; exact Hin. }
    unfold iadd in H. rewrite E in H.
    rewrite getitem_app_out in H by assumption. cbn [getitem] in H.
    rewrite Z.eqb_refl in H. cbn [bind] in H. injection H as <-.
    rewrite setitem_app_out by assumption. cbn [setitem].
    rewrite Z.eqb_refl. reflexivity.
Qed.

Lemma final_correction_hits_first_largest_witness :
  (300 - Py.sum (values [(Ex.A, 100); (Ex.B, 150); (Ex.C, 150)]) = 0 /\
   [(Ex.A, 100); (Ex.B, 50); (Ex.C, 150)]
   = [(Ex.A, 100); (Ex.B, 150); (Ex.C, 150)]) \/
  (300 - Py.sum (values [(Ex.A, 100); (Ex.B, 150); (Ex.C, 150)]) <> 0 /\
   exists pre pid t post,
     [(Ex.A, 100); (Ex.B, 150); (Ex.C, 150)] = pre ++ (pid, t) :: post /\
     Forall (fun kv => snd kv < t) pre /\
     Forall (fun kv => snd kv <= t) post /\
     [(Ex.A, 100); (Ex.B, 50); (Ex.C, 150)]
     = pre ++ (pid, t + (300 - Py.sum (values [(Ex.A, 100); (Ex.B, 150);
                                               (Ex.C, 150)]))) :: post).
Proof.
  apply (final_correction_hits_first_largest 300
           [(Ex.A, 100); (Ex.B, 150); (Ex.C, 150)]
           [(Ex.A, 100); (Ex.B, 50); (Ex.C, 150)]).
  - repeat constructor; cbn; intuition discriminate.
  - vm_compute; reflexivity.
Defined.

(** X5. A magic link logs its user in for two hours: with the token that
    [request_magic_link] stored at [utcnow], the middleware sets the email
    of the link at every instant before [utcnow] plus two hours, and no
    email from then on. *)
Theorem magic_link_authenticates (TOKENS : tokens) (uuid4 : string)
        (utcnow : datetime) (email : string) (now : datetime) :
  truthy uuid4 = true ->
  add_demo_user (fst (request_magic_link TOKENS uuid4 utcnow email)) now
                (Some uuid4)
  = if now <? utcnow + timedelta_hours 2 then Some email else None.
Proof.
  intros T. unfold request_magic_link, add_demo_user. cbn [fst].
  rewrite T, tokens_get_set_same. reflexivity.
Qed.

Lemma magic_link_authenticates_witness :
  add_demo_user
    (fst (request_magic_link Ex3.TOKENS "tok-b" 1000 "b@example.org"))
    7200000999 (Some "tok-b"%string)
  = if 7200000999 <? 1000 + timedelta_hours 2
    then Some "b@example.org"%string else None.
Proof.
  apply (magic_link_authenticates Ex3.TOKENS "tok-b" 1000 "b@example.org"
                                  7200000999).
  reflexivity.
Defined.

(** X6. A new magic link changes the login of no other token: what the
    middleware sets for a query whose token is not the new one, or that has
    no token, is what it set before. *)
Theorem magic_link_leaves_other_tokens (TOKENS : tokens) (uuid4 : string)
        (utcnow : datetime) (email : string) (now : datetime)
        (token : option string) :
  token <> Some uuid4 ->
  add_demo_user (fst (request_magic_link TOKENS uuid4 utcnow email)) now token
  = add_demo_user TOKENS now token.
Proof.
  intros Hne. unfold request_magic_link, add_demo_user. cbn [fst].
  destruct token as [t |]; [| reflexivity].
  destruct (truthy t); [| reflexivity].
  rewrite tokens_get_set_other; [reflexivity |].
  intros ->. apply Hne. reflexivity.
Qed.

Lemma magic_link_leaves_other_tokens_witness :
  add_demo_user
    (fst (request_magic_link Ex3.TOKENS "tok-b" 1000 "b@example.org"))
    8000 (Some "tok-a"%string)
  = add_demo_user Ex3.TOKENS 8000 (Some "tok-a"%string).
Proof.
  apply (magic_link_leaves_other_tokens Ex3.TOKENS "tok-b" 1000
           "b@example.org" 8000 (Some "tok-a"%string)).
  discriminate.
Defined.

(** X7. [get_or_create_user] returns a user of the email it is given, adds
    at most that user to the table and nothing to the others, returns the
    same user and adds nothing when it is asked again, and keeps the emails
    of the table pairwise different. *)
Theorem get_or_create_user_once (db : Store) (email : string) :
  let db' := fst (get_or_create_user db email) in
  let u := snd (get_or_create_user db email) in
  User.email u = email /\
  In u (users db') /\
  (users db' = users db \/ users db' = users db ++ [u]) /\
  tables db' = tables db /\ invites db' = invites db /\
  get_or_create_user db' email = (db', u) /\
  (NoDup (map User.email (users db)) -> NoDup (map User.email (users db'))).
Proof.
  cbv zeta. destruct (get_or_create_user db email) as [db' u] eqn:G.
  cbn [fst snd]. apply get_or_create_user_spec in G.
  destruct G as [F [E [Ht [Hi Hus]]]].
  split; [exact E |].
  split; [apply (find_some _ _ F) |].
  split; [tauto |].
  split; [exact Ht |]. split; [exact Hi |].
  split; [apply get_or_create_user_found, F |].
  intros Hnd. destruct Hus as [-> | [-> [Hne _]]]; [exact Hnd |].
  rewrite map_app. cbn [map]. apply NoDup_snoc; [exact Hnd |].
  rewrite E. exact Hne.
Qed.

(** X8. The routes that write keep the constraints that the tables
    declare: after [create_event], [invite], [join] and [pledge], whether
    they return or raise, the primary keys of every table, the emails of
    the users and the tokens of the invites are pairwise different, when
    they were before. *)
Theorem routes_keep_constraints (db : Store) (user_email token : option string)
        (title description currency : string) (total_amount : decimal)
        (uuid4 : string) (utcnow utcnow' : datetime) (event_id : Z)
        (invite_email invite_token : string) (participant_id : Z)
        (ptype : string) (value_type : option string)
        (value : option decimal) :
  constraints_hold db ->
  constraints_hold
    (left_by (create_event db user_email token title description currency
                           total_amount)) /\
  constraints_hold
    (left_by (invite db user_email token uuid4 utcnow event_id invite_email)) /\
  constraints_hold
    (left_by (join db utcnow utcnow' token event_id invite_token)) /\
  constraints_hold
    (left_by (pledge db user_email token event_id participant_id ptype
                     value_type value)).
Proof.
  intros H. split; [apply create_event_constraints, H |].
  split; [apply invite_constraints, H |].
  split; [apply join_constraints, H | apply pledge_constraints, H].
Qed.

(** X9. A pledge made through the pledge route changes the allocations
    only when it is an overpay: for every other type, a bid included since
    the route stores it inactive, [compute_allocations] gives for every
    event what it gave before, whether the route returns or raises. *)
Theorem pledge_route_changes_overpay_only (db : Store)
        (user_email token : option string) (event_id participant_id : Z)
        (ptype : string) (value_type : option string)
        (value : option decimal) (e : Z) :
  ptype <> "volunteer_overpay"%string ->
  compute_allocations
    (tables (left_by (pledge db user_email token event_id participant_id
                             ptype value_type value))) e
  = compute_allocations (tables db) e.
Proof.
  intros Hty.
  destruct (pledge_tables db user_email token event_id participant_id ptype
              value_type value) as [-> | [db1 [Ht [-> _]]]];
    [reflexivity |].
  rewrite <- Ht.
  assert (Hq : forall ty,
             ty = "volunteer_overpay"%string \/ ty = "underpay_bid"%string ->
             query_pledges
               (tables (add_pledge db1
                  (Pledge.mk (next_id (map Pledge.id (pledges (tables db1))))
                             event_id participant_id ptype value_type value
                             (negb (String.eqb ptype "underpay_bid"))))) e ty
             = query_pledges (tables db1) e ty).
  { intros ty Hcase. rewrite query_pledges_add_pledge.
    cbn [Pledge.event_id Pledge.type Pledge.active].
    destruct (event_id =? e); cbn [andb]; [| apply app_nil_r].
    destruct (String.eqb_spec ptype ty) as [E | N]; cbn [andb];
      [| apply app_nil_r].
    destruct Hcase as [-> | ->]; [contradiction |].
    subst ptype. cbn. apply app_nil_r. }
  apply compute_allocations_ext; try reflexivity.
  - rewrite Hq by auto. reflexivity.
  - rewrite Hq by auto. reflexivity.
Qed.

Lemma pledge_route_changes_overpay_only_witness :
  compute_allocations
    (tables (left_by (pledge Ex3.store (Some "a@example.org"%string)
                             (Some "tok-a"%string) 1 Ex.A "underpay_bid"
                             (Some "percent"%string) (Some (Dec 5000))))) 1
  = compute_allocations (tables Ex3.store) 1.
Proof.
  apply (pledge_route_changes_overpay_only Ex3.store
           (Some "a@example.org"%string) (Some "tok-a"%string) 1 Ex.A
           "underpay_bid" (Some "percent"%string) (Some (Dec 5000)) 1).
  discriminate.
Defined.

(** X10. The pledge route does not look at the participant: after an
    overpay pledge, of a value that fits its column, for an id that is no
    participant of an event that has participants and whose allocations
    were computed before, [compute_allocations] raises for this event,
    [KeyError], or [TypeError] for a fixed pledge without value, and so do
    [chart_data] and [event_page]. *)
Theorem overpay_of_stranger_breaks_event (db : Store) (email : string)
        (token : option string) (event_id participant_id : Z)
        (value_type : option string) (value : option decimal)
        (m : list (Z * decimal)) (page_email : option string) :
  truthy email = true ->
  query_participants (tables db) event_id <> [] ->
  is_participant (map Participant.id (query_participants (tables db) event_id))
                 participant_id = false ->
  value_fits value = true ->
  compute_allocations (tables db) event_id = Ok m ->
  let db' := left_by (pledge db (Some email) token event_id participant_id
                             "volunteer_overpay" value_type value) in
  let e := unknown_participant_error value_type value in
  compute_allocations (tables db') event_id = Err e /\
  chart_data (tables db') event_id = Err e /\
  event_page (tables db') page_email event_id = Err e.
Proof.
  intros T Hne Hout _ H db' e.
  assert (Hc : compute_allocations (tables db') event_id = Err e).
  { unfold db'.
    destruct (pledge_logged_in db email token event_id participant_id
                "volunteer_overpay" value_type value T) as [db1 [Ht ->]].
    cbn [left_by].
    {
      set (pl := Pledge.mk (next_id (map Pledge.id (pledges (tables db1))))
                           event_id participant_id "volunteer_overpay"
                           value_type value
                           (negb (String.eqb "volunteer_overpay"
                                             "underpay_bid"))).
      assert (Hv : query_pledges (tables (add_pledge db1 pl)) event_id
                                 "volunteer_overpay"
                   = query_pledges (tables db) event_id "volunteer_overpay"
                     ++ [pl]).
      { rewrite query_pledges_add_pledge, Ht. unfold pl.
        cbn [Pledge.event_id Pledge.type Pledge.active].
        rewrite Z.eqb_refl. reflexivity. }
      unfold compute_allocations in *.
      change (query_participants (tables (add_pledge db1 pl)) event_id)
        with (query_participants (tables db1) event_id).
      change (query_event (tables (add_pledge db1 pl)) event_id)
        with (query_event (tables db1) event_id).
      rewrite Hv, Ht.
      destruct (query_participants (tables db) event_id) as [| p parts]
        eqn:Hparts; [congruence |].
      bind_inv H. rename a into total. rewrite Ha. cbn [bind].
      bind_inv H. rename a into c. rewrite Ha0. cbn [bind].
      bind_inv H. rename a into t0. rewrite Ha1. cbn [bind].
      bind_inv H. rename a into t1. rewrite foldM_app, Ha2. cbn [bind foldM].
      assert (K : ~ In participant_id (keys t1)).
      { intros Hin.
        apply (foldM_preserves volunteer_overpay (fun tg => keys tg = keys t0))
          in Ha2; [| intros s x s' Hs Hx; rewrite <- Hs;
                     eapply volunteer_overpay_keys, Hx | reflexivity].
        rewrite Ha2 in Hin.
        destruct (equal_split_Ok c (p :: parts)) as [t0' [E [_ Hk]]];
          [discriminate |].
        rewrite Ha1 in E. injection E as <-.
        apply Hk, is_participant_In in Hin. congruence. }
      rewrite (volunteer_overpay_unknown t1 pl K). reflexivity. } }
  split; [exact Hc |].
  unfold chart_data, event_page. rewrite Hc. split; reflexivity.
Qed.

Lemma overpay_of_stranger_breaks_event_witness :
  compute_allocations
    (tables (left_by (pledge Ex3.store (Some "a@example.org"%string) None 1 77
                             "volunteer_overpay" (Some "fixed"%string)
                             (Some (Dec 100))))) 1
  = Err KeyError.
Proof.
  apply (overpay_of_stranger_breaks_event Ex3.store "a@example.org" None 1 77
           (Some "fixed"%string) (Some (Dec 100))
           [(Ex.A, Dec 34); (Ex.B, Dec 66); (Ex.C, Dec 0)] None).
  - reflexivity.
  - discriminate.
  - reflexivity.
  - reflexivity.
  - vm_compute; reflexivity.
Defined.

Lemma routes_keep_constraints_witness :
  constraints_hold
    (left_by (create_event Ex3.store (Some "a@example.org"%string) None
                           "lunch" "shared" "AUD" (Dec 1200))) /\
  constraints_hold
    (left_by (invite Ex3.store (Some "a@example.org"%string) None "tok-e" 4000
                     1 "e@example.org")) /\
  constraints_hold (left_by (join Ex3.store 4000 4001 None 1 "tok-d")) /\
  constraints_hold
    (left_by (pledge Ex3.store (Some "a@example.org"%string) None 1 Ex.A
                     "equal" None None)).
Proof.
  apply (routes_keep_constraints Ex3.store (Some "a@example.org"%string)).
  unfold constraints_hold.
  repeat split; repeat constructor; cbn; intuition discriminate.
Defined.

(** X11. [join] with the token of an invite of the event that has not
    expired, the instant of the expiry included, returns the redirect to
    the event and leaves the invited email with a user who is a
    participant of the event; the events and the pledges are as before. *)
Theorem join_makes_participant (db : Store) (utcnow utcnow' : datetime)
        (request_token : option string) (event_id : Z) (token : string)
        (inv : Invite.t) (expires : datetime) :
  query_invite db event_id token = Some inv ->
  Invite.token_expires_at inv = Some expires ->
  utcnow <= expires ->
  exists db',
    join db utcnow utcnow' request_token event_id token
    = Returns (db', mkRedirect (event_url event_id request_token) 303) /\
    (exists u p, In u (users db') /\ User.email u = Invite.email inv /\
                 In p (query_participants (tables db') event_id) /\
                 Participant.user_id p = User.id u) /\
    events (tables db') = events (tables db) /\
    pledges (tables db') = pledges (tables db).
Proof.
  intros Hq He Hle.
  destruct (join_returns db utcnow utcnow' request_token event_id token inv
              expires Hq He Hle) as [db' [E [P [H1 [H2 _]]]]].
  exists db'. split; [exact E |].
  split; [apply participates_In, P |]. split; assumption.
Qed.

Lemma join_makes_participant_witness :
  exists db',
    join Ex3.store 5000 5001 None 1 "tok-d"
    = Returns (db', mkRedirect (event_url 1 None) 303) /\
    (exists u p, In u (users db') /\ User.email u = "d@example.org"%string /\
                 In p (query_participants (tables db') 1) /\
                 Participant.user_id p = User.id u) /\
    events (tables db') = events (tables Ex3.store) /\
    pledges (tables db') = pledges (tables Ex3.store).
Proof.
  apply (join_makes_participant Ex3.store 5000 5001 None 1 "tok-d"
           (Invite.mk 1 1 "d@example.org" "member" "tok-d" (Some 5000) None)
           5000).
  - reflexivity.
  - reflexivity.
  - lia.
Defined.

(** X12. Joining again adds nothing: after a [join] that returned, a
    second [join] with the same token, at whatever instant and whether it
    returns or raises, leaves the users, the participants and the other
    tables that [compute_allocations] reads as the first left them. *)
Theorem join_again_adds_nothing (db : Store) (utcnow utcnow' : datetime)
        (request_token : option string) (event_id : Z) (token : string)
        (inv : Invite.t) (expires : datetime)
        (again again' : datetime) (request_token' : option string) :
  query_invite db event_id token = Some inv ->
  Invite.token_expires_at inv = Some expires ->
  utcnow <= expires ->
  let db1 := left_by (join db utcnow utcnow' request_token event_id token) in
  let db2 := left_by (join db1 again again' request_token' event_id token) in
  tables db2 = tables db1 /\ users db2 = users db1.
Proof.
  intros Hq He Hle db1 db2.
  destruct (join_returns db utcnow utcnow' request_token event_id token inv
              expires Hq He Hle) as [db' [E [[u [p [Fu Fp]]] [_ [_ Hi]]]]].
  unfold db2, db1. rewrite E. cbn [left_by].
  assert (Q : query_invite db' event_id token
              = Some (Invite.mk (Invite.id inv) (Invite.event_id inv)
                                (Invite.email inv) (Invite.role inv)
                                (Invite.token inv) (Some expires)
                                (Some utcnow'))).
  { unfold query_invite in *. rewrite Hi, find_set_accepted_at, Hq, <- He.
    reflexivity. }
  unfold join. rewrite Q. cbn [Invite.token_expires_at Invite.email].
  destruct (expires <? again); [split; reflexivity |]. rewrite Hi.
  rewrite (get_or_create_user_found
             (mkStore (tables db') (users db')
                      (set_accepted_at
                         (set_accepted_at (invites db) event_id token utcnow')
                         event_id token again'))
             (Invite.email inv) u Fu).
  cbn [tables]. rewrite Fp. cbn [left_by tables users]. split; reflexivity.
Qed.

Lemma join_again_adds_nothing_witness :
  tables (left_by (join (left_by (join Ex3.store 4000 4001 None 1 "tok-d"))
                        4500 4501 None 1 "tok-d"))
  = tables (left_by (join Ex3.store 4000 4001 None 1 "tok-d")) /\
  users (left_by (join (left_by (join Ex3.store 4000 4001 None 1 "tok-d"))
                       4500 4501 None 1 "tok-d"))
  = users (left_by (join Ex3.store 4000 4001 None 1 "tok-d")).
Proof.
  apply (join_again_adds_nothing Ex3.store 4000 4001 None 1 "tok-d"
           (Invite.mk 1 1 "d@example.org" "member" "tok-d" (Some 5000) None)
           5000 4500 4501 None).
  - reflexivity.
  - reflexivity.
  - lia.
Defined.

(** X13. An invite can be joined for seven days: after [invite] by a
    logged-in user with a token that no invite has yet, [join] with this
    token returns and makes the invited email a participant of the event at
    every instant up to seven days after the invite, that instant included,
    and raises the 400 of an invalid or expired invite, writing nothing, at
    every later instant. *)
Theorem invite_can_be_joined_for_seven_days (db : Store) (email : string)
        (token : option string) (uuid4 : string) (utcnow : datetime)
        (event_id : Z) (invite_email : string) :
  truthy email = true ->
  existsb (fun i => String.eqb (Invite.token i) uuid4) (invites db) = false ->
  exists db1,
    invite db (Some email) token uuid4 utcnow event_id invite_email
    = Returns (db1, mkRedirect (event_url event_id token) 303) /\
    (forall now now' request_token,
       now <= utcnow + timedelta_days 7 ->
       exists db2,
         join db1 now now' request_token event_id uuid4
         = Returns (db2, mkRedirect (event_url event_id request_token) 303) /\
         exists u p, In u (users db2) /\ User.email u = invite_email /\
                     In p (query_participants (tables db2) event_id) /\
                     Participant.user_id p = User.id u) /\
    (forall now now' request_token,
       utcnow + timedelta_days 7 < now ->
       join db1 now now' request_token event_id uuid4
       = Raises (HTTPException 400 "Invalid or expired invite") db1).
Proof.
  intros T X. unfold invite, require_user. rewrite T.
  destruct (get_or_create_user db email) as [dbu user] eqn:G.
  apply get_or_create_user_spec in G. destruct G as [_ [_ [_ [Hi _]]]].
  cbn [and_then]. rewrite Hi, X.
  set (inv := Invite.mk (next_id (map Invite.id (invites db))) event_id
                        invite_email "member" uuid4
                        (Some (utcnow + timedelta_days 7)) None).
  exists (add_invite dbu inv). split; [reflexivity |].
  assert (Q : query_invite (add_invite dbu inv) event_id uuid4 = Some inv).
  { unfold query_invite, add_invite. cbn [invites]. rewrite Hi, find_snoc.
    destruct (find _ (invites db)) as [i |] eqn:F.
    - apply find_some in F. destruct F as [Hin M].
      apply andb_prop in M. destruct M as [_ M].
      assert (E : existsb (fun i => String.eqb (Invite.token i) uuid4)
                          (invites db) = true)
        by (apply existsb_exists; eauto).
      congruence.
    - unfold inv. cbn [Invite.event_id Invite.token].
      rewrite Z.eqb_refl, String.eqb_refl. reflexivity. }
  split.
  - intros now now' request_token Hle.
    destruct (join_returns (add_invite dbu inv) now now' request_token
                event_id uuid4 inv (utcnow + timedelta_days 7) Q eq_refl Hle)
      as [db2 [E [P _]]].
    exists db2. split; [exact E |]. apply participates_In in P. exact P.
  - intros now now' request_token Hlt. unfold join. rewrite Q.
    cbn [Invite.token_expires_at inv].
    destruct (Z.ltb_spec (utcnow + timedelta_days 7) now); [reflexivity | lia].
Qed.

Lemma invite_can_be_joined_for_seven_days_witness :
  exists db1,
    invite Ex3.store (Some "a@example.org"%string) None "tok-e" 4000 1
           "e@example.org"
    = Returns (db1, mkRedirect (event_url 1 None) 303) /\
    (forall now now' request_token,
       now <= 4000 + timedelta_days 7 ->
       exists db2,
         join db1 now now' request_token 1 "tok-e"
         = Returns (db2, mkRedirect (event_url 1 request_token) 303) /\
         exists u p, In u (users db2) /\
                     User.email u = "e@example.org"%string /\
                     In p (query_participants (tables db2) 1) /\
                     Participant.user_id p = User.id u) /\
    (forall now now' request_token,
       4000 + timedelta_days 7 < now ->
       join db1 now now' request_token 1 "tok-e"
       = Raises (HTTPException 400 "Invalid or expired invite") db1).
Proof.
  apply (invite_can_be_joined_for_seven_days Ex3.store "a@example.org" None
           "tok-e" 4000 1 "e@example.org").
  - reflexivity.
  - reflexivity.
Defined.

(** X14. The creator of an event pays its whole total: [create_event] by a
    logged-in user, with a total that fits its column, when no participant
    and no pledge carries the id of the new event already, returns the
    redirect to the new event, makes the user its participant, and
    [compute_allocations] of the new event is the total for this one
    participant. *)
Theorem creator_pays_total (db : Store) (email : string)
        (token : option string) (title description currency : string)
        (total_amount : decimal) :
  truthy email = true ->
  fits_column (hundredths total_amount) = true ->
  let event_id := next_id (map Event.id (events (tables db))) in
  forallb (fun p => negb (Participant.event_id p =? event_id))
          (participants (tables db)) = true ->
  forallb (fun p => negb (Pledge.event_id p =? event_id))
          (pledges (tables db)) = true ->
  exists db' pid,
    create_event db (Some email) token title description currency total_amount
    = Returns (db', mkRedirect (event_url event_id token) 303) /\
    compute_allocations (tables db') event_id = Ok [(pid, total_amount)] /\
    exists u p, In u (users db') /\ User.email u = email /\
                query_participants (tables db') event_id = [p] /\
                Participant.id p = pid /\
                Participant.user_id p = User.id u.
Proof.
  intros T _ event_id Hparts Hpledges. unfold create_event, require_user.
  rewrite T. destruct (get_or_create_user db email) as [db1 user] eqn:G.
  apply get_or_create_user_spec in G. destruct G as [F [Eu [Ht _]]].
  cbn [and_then]. rewrite Ht. fold event_id.
  set (ev := Event.mk event_id title description currency total_amount
                      "active" (User.id user)).
  cbn [Event.id].
  set (p := Participant.mk
              (next_id (map Participant.id
                            (participants (tables (add_event db1 ev)))))
              event_id (User.id user) (before_at (User.email user))).
  exists (add_participant (add_event db1 ev) p), (Participant.id p).
  split; [reflexivity |].
  assert (Qp : query_participants (tables (add_participant (add_event db1 ev) p))
                                  event_id = [p]).
  { unfold query_participants, add_participant, add_event.
    cbn [tables participants]. rewrite Ht, filter_app.
    rewrite (filter_none _ _ Hparts). cbn [filter app Participant.event_id p].
    rewrite Z.eqb_refl. reflexivity. }
  split.
  - apply (compute_allocations_single _ event_id ev p).
    + unfold query_event, add_participant, add_event. cbn [tables events].
      rewrite Ht. apply (find_event_fresh (events (tables db)) ev). reflexivity.
    + exact Qp.
    + unfold query_pledges, add_participant, add_event. cbn [tables pledges].
      rewrite Ht. apply filter_none. rewrite forallb_forall in *.
      intros x Hx. specialize (Hpledges x Hx).
      destruct (Pledge.event_id x =? event_id); [discriminate | reflexivity].
    + unfold query_pledges, add_participant, add_event. cbn [tables pledges].
      rewrite Ht. apply filter_none. rewrite forallb_forall in *.
      intros x Hx. specialize (Hpledges x Hx).
      destruct (Pledge.event_id x =? event_id); [discriminate | reflexivity].
  - exists user, p. split; [apply (find_some _ _ F) |].
    split; [exact Eu |]. split; [exact Qp |]. split; reflexivity.
Qed.

Lemma creator_pays_total_witness :
  exists db' pid,
    create_event Ex3.store (Some "d@example.org"%string) None "lunch" "shared"
                 "AUD" (Dec 1200)
    = Returns (db', mkRedirect (event_url 2 None) 303) /\
    compute_allocations (tables db') 2 = Ok [(pid, Dec 1200)] /\
    exists u p, In u (users db') /\ User.email u = "d@example.org"%string /\
                query_participants (tables db') 2 = [p] /\
                Participant.id p = pid /\
                Participant.user_id p = User.id u.
Proof.
  apply (creator_pays_total Ex3.store "d@example.org" None "lunch" "shared"
           "AUD" (Dec 1200)).
  - reflexivity.
  - reflexivity.
  - reflexivity.
  - reflexivity.
Defined.

(** X15. The chart shows the allocations: for an event that exists, with
    participants of pairwise different ids, what [chart_data] returns has
    one label, never empty, and one value for each participant, in the
    order of the participants; the values are the amounts of
    [compute_allocations], the default of [get] standing for none of them,
    and they sum to the total when the total and each of them fits the
    column. *)
Theorem chart_shows_allocations (db : Session) (event_id : Z) (ev : Event.t)
        (labels : list string) (values : list decimal) :
  query_event db event_id = Some ev ->
  query_participants db event_id <> [] ->
  NoDup (map Participant.id (query_participants db event_id)) ->
  chart_data db event_id = Ok (labels, values) ->
  compute_allocations db event_id
  = Ok (combine (map Participant.id (query_participants db event_id)) values) /\
  List.length labels = List.length (query_participants db event_id) /\
  List.length values = List.length (query_participants db event_id) /\
  Forall (fun l => truthy l = true) labels /\
  (fits_column (hundredths (Event.total_amount ev)) = true ->
   Forall (fun v => fits_column (hundredths v) = true) values ->
   Py.sum (map hundredths values) = hundredths (Event.total_amount ev)).
Proof.
  intros Hev Hne Hnd H. unfold chart_data in H. bind_inv H. rename a into m.
  injection H as <- <-.
  destruct (compute_allocations_keys db event_id m Hne Ha) as [Hm [_ K]].
  specialize (K Hnd).
  assert (V : map (fun p => allocs_get m (Participant.id p) (Dec 0))
                  (query_participants db event_id) = map snd m).
  { rewrite <- (allocs_get_keys m (Dec 0) Hm), K, map_map. reflexivity. }
  rewrite V, Ha, <- K, combine_fst_snd.
  split; [reflexivity |]. split; [apply length_map |].
  split; [rewrite length_map, <- (length_map fst), K; apply length_map |].
  split.
  - apply Forall_forall. intros l Hl. apply in_map_iff in Hl.
    destruct Hl as [p [<- _]]. apply label_of_truthy.
  - intros _ _. rewrite map_map.
    apply (compute_allocations_sum db event_id ev Hev Hne m Ha).
Qed.

Lemma chart_shows_allocations_witness :
  compute_allocations Ex.mixed 1
  = Ok (combine (map Participant.id (query_participants Ex.mixed 1))
                [Dec 34; Dec 66; Dec 0]) /\
  List.length ["a"; "b"; "c"]%string
  = List.length (query_participants Ex.mixed 1) /\
  List.length [Dec 34; Dec 66; Dec 0]
  = List.length (query_participants Ex.mixed 1) /\
  Forall (fun l => truthy l = true) ["a"; "b"; "c"]%string /\
  (fits_column (hundredths (Event.total_amount (Ex.event 100))) = true ->
   Forall (fun v => fits_column (hundredths v) = true)
          [Dec 34; Dec 66; Dec 0] ->
   Py.sum (map hundredths [Dec 34; Dec 66; Dec 0])
   = hundredths (Event.total_amount (Ex.event 100))).
Proof.
  apply (chart_shows_allocations Ex.mixed 1 (Ex.event 100)
           ["a"; "b"; "c"]%string [Dec 34; Dec 66; Dec 0]).
  - reflexivity.
  - discriminate.
  - repeat constructor; cbn; intuition discriminate.
  - vm_compute; reflexivity.
Defined.
